(** * resume_builder: a shallow embedding of [resume_builder.py]

    The program prompts for the sections of a résumé on the terminal,
    escapes every collected string for LaTeX, renders a Jinja2 template
    and runs [pdflatex] twice.  This development embeds

    - the escaping table and the regular-expression substitution of
      [escape_latex_special_chars];
    - the recursive traversal [sanitize_data];
    - the prompt loops of the data collector, over an explicit terminal;
    - the compilation stage of [main] with its [try]/[except]/[finally].

    A Python [str] is represented by its UTF-8 encoding (a [string] of
    bytes): the ten characters of the escaping table are ASCII, and an
    ASCII byte occurs in a UTF-8 text only as the character itself. *)

From Stdlib Require Import String Ascii List ZArith Lia Bool.
From Stdlib Require Import DecimalString.
From stdpp Require Import gmap strings.
Import ListNotations.

#[local] Set Warnings "-register-all".
#[local] Open Scope string_scope.

(** ** Python values *)

(** The values the résumé record is built from: [str], [list], [dict]
    (insertion ordered, keyed by field names) and, for the totality of
    the traversal, leaves of other types. *)
Inductive value : Type :=
| VStr (s : string)
| VList (l : list value)
| VDict (d : list (string * value))
| VInt (z : Z)
| VBool (b : bool)
| VNone.

(** ** Dictionaries

    A [dict] keeps its keys in insertion order; assigning to a key that
    is present replaces the value in place, assigning to a new key
    appends it. *)
Module Dict.

Definition t (A : Type) : Type := list (string * A).

Fixpoint get {A} (d : t A) (k : string) : option A :=
  match d with
  | [] => None
  | (k', v) :: d' => if String.eqb k' k then Some v else get d' k
  end.

Fixpoint set {A} (d : t A) (k : string) (v : A) : t A :=
  match d with
  | [] => [(k, v)]
  | (k', v') :: d' =>
      if String.eqb k' k then (k', v) :: d' else (k', v') :: set d' k v
  end.

Definition keys {A} (d : t A) : list string := map fst d.

Definition items {A} (d : t A) : list (string * A) := d.

End Dict.

(** ** The fragment of [re] the program uses

    The compiled pattern is an alternation of escaped literals
    ([re.escape] makes every key match itself); alternatives are tried
    in order at each position, and [sub] replaces the non-overlapping
    matches from left to right, copying every other character. *)
Module Re.

Definition pattern : Type := list string.

(** The literal [k] matches at the start of [s]. *)
Fixpoint starts_with (k s : string) : bool :=
  match k with
  | EmptyString => true
  | String a k' =>
      match s with
      | EmptyString => false
      | String b s' => Ascii.eqb a b && starts_with k' s'
      end
  end.

(** First alternative that matches at the start of [s]. *)
Fixpoint match_at (alts : pattern) (s : string) : option string :=
  match alts with
  | [] => None
  | k :: alts' => if starts_with k s then Some k else match_at alts' s
  end.

(** [sub_from alts repl skip s]: [skip] counts the characters of [s]
    still covered by the match that was just replaced.  (The
    alternatives are non-empty literals, see [regex_alternatives].) *)
Fixpoint sub_from (alts : pattern) (repl : string -> string)
         (skip : nat) (s : string) : string :=
  match s with
  | EmptyString => EmptyString
  | String c rest =>
      match skip with
      | S k => sub_from alts repl k rest
      | O =>
          match match_at alts s with
          | Some m => repl m ++ sub_from alts repl (String.length m - 1) rest
          | None => String c (sub_from alts repl 0 rest)
          end
      end
  end.

Definition sub (alts : pattern) (repl : string -> string) (s : string)
  : string :=
  sub_from alts repl 0 s.

End Re.

(** [len(s)] counts the characters of a [str]: in its UTF-8 encoding,
    the bytes that do not continue a character (those not of the form
    [10xxxxxx]). *)
Definition is_continuation (c : ascii) : bool :=
  match c with
  | Ascii _ _ _ _ _ _ b6 b7 => b7 && negb b6
  end.

Fixpoint str_len (s : string) : nat :=
  match s with
  | EmptyString => 0
  | String c s' => (if is_continuation c then 0 else 1) + str_len s'
  end.

(** [sorted(keys, key=lambda item: - len(item))]: a stable sort, longest
    key first. *)
Fixpoint insert_longest_first (k : string) (l : list string) : list string :=
  match l with
  | [] => [k]
  | x :: l' =>
      if (str_len k <=? str_len x)%nat
      then x :: insert_longest_first k l'
      else k :: x :: l'
  end.

Definition sorted_longest_first (l : list string) : list string :=
  fold_left (fun acc k => insert_longest_first k acc) l [].

(** ** [escape_latex_special_chars] *)

(** The table [conv], in the order of the source. *)
Definition conv : Dict.t string :=
  [ ("\", "\\");
    ("&", "\&");
    ("%", "\%");
    ("$", "\$");
    ("#", "\#");
    ("_", "\_");
    ("{", "\{");
    ("}", "\}");
    ("~", "\textasciitilde{}");
    ("^", "\textasciicircum{}") ].

(** [regex]: the alternation of the keys of [conv], longest first. *)
Definition regex : Re.pattern := sorted_longest_first (Dict.keys conv).

(** [conv[match.group()]]; the matched text is always a key of [conv]
    (lemma [conv_item_of_match]), so the lookup cannot fail. *)
Definition conv_item (m : string) : string :=
  match Dict.get conv m with
  | Some r => r
  | None => m
  end.

(** The body of the function on a [str]. *)
Definition escape_latex_str (text : string) : string :=
  Re.sub regex conv_item text.

Definition escape_latex_special_chars (text : value) : value :=
  match text with
  | VStr s => VStr (escape_latex_str s)
  | _ => text
  end.

(** ** Reading the output of the sanitizer *)

(** One simultaneous pass: every character of the input is looked up in
    the table once, and what is emitted is not looked at again. *)
Definition escape_char (c : ascii) : string :=
  match Dict.get conv (String c EmptyString) with
  | Some r => r
  | None => String c EmptyString
  end.

Fixpoint simultaneous_subst (s : string) : string :=
  match s with
  | EmptyString => EmptyString
  | String c s' => escape_char c ++ simultaneous_subst s'
  end.

(** The ten characters of the table. *)
Definition is_special (c : ascii) : bool :=
  existsb (fun k => String.eqb k (String c EmptyString)) (Dict.keys conv).

(** The eight characters that are escaped by a backslash put before them. *)
Definition backslash_escaped : list ascii :=
  ["\"; "&"; "%"; "$"; "#"; "_"; "{"; "}"]%char.

Definition is_backslash_escaped (c : ascii) : bool :=
  existsb (Ascii.eqb c) backslash_escaped.

Fixpoint has_special (s : string) : bool :=
  match s with
  | EmptyString => false
  | String c s' => is_special c || has_special s'
  end.

Fixpoint occurs (c : ascii) (s : string) : bool :=
  match s with
  | EmptyString => false
  | String d s' => Ascii.eqb c d || occurs c s'
  end.

(** [well_escaped_from skip s]: reading [s] from the left, every
    character of the table belongs to an escape sequence: a backslash
    opens either a two-character escape of one of the eight characters,
    or one of the two glyph commands with its empty group; outside these
    sequences none of the ten characters occurs.  [skip] counts the
    characters that remain of the sequence being read. *)
Fixpoint well_escaped_from (skip : nat) (s : string) : bool :=
  match s with
  | EmptyString => Nat.eqb skip 0
  | String c rest =>
      match skip with
      | S k => well_escaped_from k rest
      | O =>
          if Ascii.eqb c "\" then
            match rest with
            | EmptyString => false
            | String d _ =>
                if is_backslash_escaped d then well_escaped_from 1 rest
                else if Re.starts_with "textasciitilde{}" rest
                     then well_escaped_from 16 rest
                else if Re.starts_with "textasciicircum{}" rest
                     then well_escaped_from 17 rest
                else false
            end
          else if is_special c then false
          else well_escaped_from 0 rest
      end
  end.

Definition well_escaped (s : string) : bool := well_escaped_from 0 s.

(** ** [sanitize_data] *)

(** The dict comprehension [{k: f(v) for k, v in data.items()}]: the
    items are visited in order and each is assigned into a new dict. *)
Definition dict_comprehension {A B} (f : A -> B) (d : Dict.t A) : Dict.t B :=
  fold_left (fun acc kv => Dict.set acc (fst kv) (f (snd kv)))
            (Dict.items d) [].

Fixpoint sanitize_data (data : value) : value :=
  match data with
  | VDict d => VDict (dict_comprehension sanitize_data d)
  | VList l => VList (map sanitize_data l)
  | VStr _ => escape_latex_special_chars data
  | _ => data
  end.

(** A list of pairs is the content of a [dict] when no key is repeated;
    [is_record] asks it of every mapping nested in a value. *)
Fixpoint distinct (ks : list string) : bool :=
  match ks with
  | [] => true
  | k :: ks' => negb (existsb (String.eqb k) ks') && distinct ks'
  end.

Fixpoint is_record (v : value) : bool :=
  match v with
  | VDict d =>
      distinct (Dict.keys d) && forallb (fun kv => is_record (snd kv)) d
  | VList l => forallb is_record l
  | _ => true
  end.

(** The nested shape of a value: the keys of each mapping in order, the
    length of each sequence, the kind of each leaf. *)
Inductive shape : Type :=
| SStr
| SOther
| SSeq (l : list shape)
| SMap (d : list (string * shape)).

Fixpoint shape_of (v : value) : shape :=
  match v with
  | VDict d => SMap (map (fun kv => (fst kv, shape_of (snd kv))) d)
  | VList l => SSeq (map shape_of l)
  | VStr _ => SStr
  | _ => SOther
  end.

(** The traversal as the specification words it: keys kept, every
    element of a sequence and every value of a mapping visited, string
    leaves transformed by [f], other leaves returned as they are. *)
Fixpoint map_strings (f : string -> string) (v : value) : value :=
  match v with
  | VDict d => VDict (map (fun kv => (fst kv, map_strings f (snd kv))) d)
  | VList l => VList (map (map_strings f) l)
  | VStr s => VStr (f s)
  | _ => v
  end.

(** No string leaf of the value holds a character of the table. *)
Fixpoint no_special (v : value) : bool :=
  match v with
  | VDict d => forallb (fun kv => no_special (snd kv)) d
  | VList l => forallb no_special l
  | VStr s => negb (has_special s)
  | _ => true
  end.

(** A record used to exercise the traversal. *)
Definition sample_record : value :=
  VDict [ ("name", VStr "Ada_L");
          ("technical_skills", VDict [("Languages", VList [VStr "C#"; VStr "R"])]);
          ("experience",
            VList [VDict [ ("role", VStr "Software Engineer");
                           ("company", VStr "Acme & Co");
                           ("description",
                             VList [VStr "Built 50% faster pipeline"]) ]]);
          ("pages", VInt 2);
          ("draft", VBool false);
          ("photo", VNone) ].

Definition plain_record : value :=
  VDict [ ("name", VStr "Ada Lovelace");
          ("education",
            VList [VDict [ ("university", VStr "London");
                           ("gpa", VStr "CGPA: 7.1") ]]);
          ("pages", VInt 2) ].

(** * The program and its world *)

(** ** Exceptions, outcomes, the world *)

Inductive exn : Type :=
| EOFError
| FileNotFoundError
| CalledProcessError (returncode : Z) (output : string) (stderr : string)
| TemplateNotFound (name : string)
| TemplateError (message : string)
| OtherOSError (name : string).  (* PermissionError, NotADirectoryError, ... *)

(** What a computation ends with.  [Diverge] is a loop that was cut short
    by its bound; the theorems on the loops show it does not occur. *)
Inductive outcome (A : Type) : Type :=
| Ret (a : A)
| Raise (e : exn)
| Diverge.
Arguments Ret {A} a.
Arguments Raise {A} e.
Arguments Diverge {A}.

(** The terminal gives, at each [input()], a line (without its end of
    line) or an end-of-input signal; when nothing is left the stream is
    closed.  [stdout] records what was written, one entry per call;
    [files] is the working directory; [spawned] records the command
    line of every [subprocess.run]; [resume_data] is the global dict. *)
Record world : Type := World {
  stdin : list (option string);
  stdout : list string;
  files : gmap string string;
  spawned : list (list string);
  resume_data : Dict.t value
}.

Definition set_stdin (i : list (option string)) (w : world) : world :=
  World i (stdout w) (files w) (spawned w) (resume_data w).
Definition set_stdout (o : list string) (w : world) : world :=
  World (stdin w) o (files w) (spawned w) (resume_data w).
Definition set_files (f : gmap string string) (w : world) : world :=
  World (stdin w) (stdout w) f (spawned w) (resume_data w).
Definition set_spawned (p : list (list string)) (w : world) : world :=
  World (stdin w) (stdout w) (files w) p (resume_data w).
Definition set_resume_data (d : Dict.t value) (w : world) : world :=
  World (stdin w) (stdout w) (files w) (spawned w) d.

(** ** A state and exception monad *)

Definition M (A : Type) : Type := world -> outcome A * world.

Definition ret {A} (a : A) : M A := fun w => (Ret a, w).

Definition raise {A} (e : exn) : M A := fun w => (Raise e, w).

Definition bind {A B} (m : M A) (k : A -> M B) : M B :=
  fun w =>
    match m w with
    | (Ret a, w') => k a w'
    | (Raise e, w') => (Raise e, w')
    | (Diverge, w') => (Diverge, w')
    end.

Notation "x <- m ;; k" := (bind m (fun x => k))
  (at level 100, m at next level, right associativity).
Notation "m ;; k" := (bind m (fun _ => k))
  (at level 100, right associativity).

(** [for x in l: body] *)
Fixpoint for_each {A} (l : list A) (body : A -> M unit) : M unit :=
  match l with
  | [] => ret tt
  | x :: l' => body x ;; for_each l' body
  end.

(** [try: m  except ...: handler]; [handler e = None] when no clause
    matches [e]. *)
Definition try_except {A} (m : M A) (handler : exn -> option (M A)) : M A :=
  fun w =>
    match m w with
    | (Raise e, w') =>
        match handler e with
        | Some h => h w'
        | None => (Raise e, w')
        end
    | r => r
    end.

(** [try: m  finally: fin]: [fin] runs whatever [m] ended with, and the
    outcome of [m] stands unless [fin] itself raises. *)
Definition try_finally {A} (m : M A) (fin : M unit) : M A :=
  fun w =>
    match m w with
    | (Diverge, w') => (Diverge, w')
    | (r, w') =>
        match fin w' with
        | (Ret _, w'') => (r, w'')
        | (Raise e, w'') => (Raise e, w'')
        | (Diverge, w'') => (Diverge, w'')
        end
    end.

(** ** [while True] loops

    The body works on the local variables [L] the loop mutates and says
    whether the loop goes on or [break]s.  The locals are returned with
    the outcome, also when the body raises: the code after the loop, or
    an [except] clause around it, reads them. *)
Inductive flow (L : Type) : Type :=
| Continue (s : L)
| Break (s : L).
Arguments Continue {L} s.
Arguments Break {L} s.

Definition Loop (L : Type) : Type := world -> outcome unit * L * world.

Fixpoint loop_fuel {L} (fuel : nat) (body : L -> M (flow L)) (s : L)
  : Loop L :=
  fun w =>
    match fuel with
    | O => (Diverge, s, w)
    | S fuel' =>
        match body s w with
        | (Ret (Continue s'), w') => loop_fuel fuel' body s' w'
        | (Ret (Break s'), w') => (Ret tt, s', w')
        | (Raise e, w') => (Raise e, s, w')
        | (Diverge, w') => (Diverge, s, w')
        end
    end.

(** Every loop of the program reads the terminal at least once in each
    iteration that goes on, so it makes at most as many iterations as
    there are events on [stdin], plus the one that ends it. *)
Definition while_true {L} (body : L -> M (flow L)) (s : L) : Loop L :=
  fun w => loop_fuel (S (length (stdin w))) body s w.

(** The locals after the loop; an exception [caught e] leaves the
    [try] around the loop normally, any other propagates. *)
Definition locals_after {L} (caught : exn -> bool) (l : Loop L) : M L :=
  fun w =>
    match l w with
    | (Ret _, s, w') => (Ret s, w')
    | (Raise e, s, w') => if caught e then (Ret s, w') else (Raise e, w')
    | (Diverge, _, w') => (Diverge, w')
    end.

Definition no_except (e : exn) : bool := false.

Definition except_EOFError (e : exn) : bool :=
  match e with
  | EOFError => true
  | _ => false
  end.

(** ** Builtins *)

Definition newline : string := String "010" EmptyString.

(** [print(s)] *)
Definition print (s : string) : M unit :=
  fun w => (Ret tt, set_stdout (stdout w ++ [(s ++ newline)%string])%list w).

(** [input(prompt)] writes the prompt, then reads one line. *)
Definition input (prompt : string) : M string :=
  fun w =>
    let w1 := set_stdout (stdout w ++ [prompt])%list w in
    match stdin w1 with
    | [] => (Raise EOFError, w1)
    | None :: rest => (Raise EOFError, set_stdin rest w1)
    | Some line :: rest => (Ret line, set_stdin rest w1)
    end.

(** Truth value of a [str]: false exactly for the empty string. *)
Definition truthy (s : string) : bool :=
  match s with
  | EmptyString => false
  | String _ _ => true
  end.

(** [resume_data[k] = v] *)
Definition resume_data_set (k : string) (v : value) : M unit :=
  fun w => (Ret tt, set_resume_data (Dict.set (resume_data w) k v) w).

(** [s.split(',')] *)
Fixpoint split_on (sep : ascii) (s : string) : list string :=
  match s with
  | EmptyString => [EmptyString]
  | String c s' =>
      if Ascii.eqb c sep then EmptyString :: split_on sep s'
      else match split_on sep s' with
           | [] => [String c EmptyString]
           | x :: l => String c x :: l
           end
  end.

(** ** The data collector *)

Definition get_user_input (prompt : string) : M string :=
  input ("Enter your " ++ prompt ++ ": ").

Definition get_list_input (prompt : string) : M (list string) :=
  print ("Enter " ++ prompt
         ++ " (one item per line). Press Enter on an empty line to finish:") ;;
  locals_after no_except
    (while_true
       (fun items =>
          item <- input "> " ;;
          if negb (truthy item) then ret (Break items)
          else ret (Continue (items ++ [item])%list))
       []).

Definition collect_personal_info : M unit :=
  print (newline ++ "--- Personal Information ---") ;;
  v <- get_user_input "Full Name" ;; resume_data_set "name" (VStr v) ;;
  v <- get_user_input "City, Country (e.g., Jaipur, India)" ;;
  resume_data_set "location" (VStr v) ;;
  v <- get_user_input "Phone Number" ;; resume_data_set "phone" (VStr v) ;;
  v <- get_user_input "Email Address" ;; resume_data_set "email" (VStr v) ;;
  v <- get_user_input "Portfolio/Website URL" ;;
  resume_data_set "portfolio" (VStr v) ;;
  v <- get_user_input "LinkedIn Profile URL" ;;
  resume_data_set "linkedin" (VStr v) ;;
  v <- get_user_input "GitHub Profile URL" ;;
  resume_data_set "github" (VStr v).

Definition collect_summary : M unit :=
  print (newline ++ "--- Professional Summary ---") ;;
  print "Enter your professional summary (a few sentences). Press Ctrl+D (Unix) or Ctrl+Z (Windows) then Enter when done." ;;
  summary_lines <-
    locals_after except_EOFError
      (while_true
         (fun summary_lines =>
            line <- input "" ;;
            ret (Continue (summary_lines ++ [line])%list))
         []) ;;
  resume_data_set "summary" (VStr (String.concat " " summary_lines)).

(** *** Repeated-entry sections

    The five collectors of repeated entries are one loop over different
    prompts: announce the entry, ask for the key field, stop on a blank
    answer, otherwise ask for the remaining fields in the order of the
    dict display and append the entry. *)
Inductive field_kind : Type :=
| Line    (* get_user_input *)
| Lines.  (* get_list_input *)

Record field : Type := Field {
  field_name : string;
  field_prompt : string;
  kind : field_kind
}.

Record repeated_section : Type := RepeatedSection {
  banner : string;
  announce : string;
  key_field : string;
  key_prompt : string;
  fields : list field;
  target : string
}.

Definition read_field (f : field) : M value :=
  match kind f with
  | Line => s <- get_user_input (field_prompt f) ;; ret (VStr s)
  | Lines => l <- get_list_input (field_prompt f) ;; ret (VList (map VStr l))
  end.

(** The rest of the dict display [{key: ..., name: read, ...}]. *)
Fixpoint read_fields (fs : list field) (entry : Dict.t value)
  : M (Dict.t value) :=
  match fs with
  | [] => ret entry
  | f :: fs' =>
      v <- read_field f ;;
      read_fields fs' (Dict.set entry (field_name f) v)
  end.

Definition entry_loop (sec : repeated_section) : Loop (list value) :=
  while_true
    (fun entries =>
       print (newline ++ announce sec) ;;
       key <- get_user_input (key_prompt sec) ;;
       if negb (truthy key) then ret (Break entries)
       else
         entry <- read_fields (fields sec) [(key_field sec, VStr key)] ;;
         ret (Continue (entries ++ [VDict entry])%list))
    [].

Definition collect_repeated (sec : repeated_section) : M unit :=
  print (newline ++ banner sec) ;;
  entries <- locals_after no_except (entry_loop sec) ;;
  resume_data_set (target sec) (VList entries).

Definition experience_section : repeated_section :=
  {| banner := "--- Work Experience ---";
     announce := "Adding a new work experience entry (or press Enter on the role to skip):";
     key_field := "role";
     key_prompt := "Role/Title";
     fields := [ Field "company" "Company Name" Line;
                 Field "start_date" "Start Date (e.g., May 2025)" Line;
                 Field "end_date" "End Date (e.g., Present)" Line;
                 Field "description" "responsibilities/achievements" Lines ];
     target := "experience" |}.

Definition internships_section : repeated_section :=
  {| banner := "--- Internships ---";
     announce := "Adding a new internship entry (or press Enter on the role to skip):";
     key_field := "role";
     key_prompt := "Role/Title";
     fields := [ Field "company" "Company/Program Name" Line;
                 Field "start_date" "Start Date (e.g., May 2021)" Line;
                 Field "end_date" "End Date (e.g., August 2021)" Line;
                 Field "description" "responsibilities/achievements" Lines ];
     target := "internships" |}.

Definition education_section : repeated_section :=
  {| banner := "--- Education ---";
     announce := "Adding a new education entry (or press Enter on the university name to skip):";
     key_field := "university";
     key_prompt := "University/Board";
     fields := [ Field "degree" "Degree (e.g., B.E. in ECE)" Line;
                 Field "gpa" "GPA/Percentage (e.g., CGPA: 7.1)" Line;
                 Field "start_date" "Start Date (e.g., September 2018)" Line;
                 Field "end_date" "End Date (e.g., June 2022)" Line ];
     target := "education" |}.

Definition projects_section : repeated_section :=
  {| banner := "--- Projects ---";
     announce := "Adding a new project entry (or press Enter on the title to skip):";
     key_field := "title";
     key_prompt := "Project Title";
     fields := [ Field "tech" "Technologies used" Line;
                 Field "date" "Date (e.g., January 2025)" Line;
                 Field "description" "description points" Lines ];
     target := "projects" |}.

Definition publications_section : repeated_section :=
  {| banner := "--- Publications ---";
     announce := "Adding a new publication entry (or press Enter on the title to skip):";
     key_field := "title";
     key_prompt := "Publication Title";
     fields := [ Field "url" "URL to the publication" Line;
                 Field "venue" "Venue/Journal (e.g., ISSN: 2582-8436)" Line;
                 Field "date" "Date (e.g., June 2022)" Line;
                 Field "description" "description points" Lines ];
     target := "publications" |}.

Definition collect_experience : M unit := collect_repeated experience_section.
Definition collect_internships : M unit := collect_repeated internships_section.
Definition collect_education : M unit := collect_repeated education_section.
Definition collect_projects : M unit := collect_repeated projects_section.
Definition collect_publications : M unit := collect_repeated publications_section.

(** The five collectors, by the section they fill. *)
Inductive section_name : Type :=
| Experience | Internships | Education | Projects | Publications.

Definition section_of (n : section_name) : repeated_section :=
  match n with
  | Experience => experience_section
  | Internships => internships_section
  | Education => education_section
  | Projects => projects_section
  | Publications => publications_section
  end.

Definition collect_section (n : section_name) : M unit :=
  match n with
  | Experience => collect_experience
  | Internships => collect_internships
  | Education => collect_education
  | Projects => collect_projects
  | Publications => collect_publications
  end.

(** *** What the user types for an entry

    An entry as the user supplies it: the answer to the key field and,
    for each remaining field, a line or a list of lines.  [typed] is
    what this makes on the terminal (a list is closed by an empty line),
    [entry_value] the dict the entry is to become. *)
Record entry_input : Type := EntryInput {
  key_answer : string;
  answers : list value
}.

Definition answer_fits (k : field_kind) (a : value) : bool :=
  match k, a with
  | Line, VStr _ => true
  | Lines, VList l =>
      forallb (fun x => match x with VStr s => truthy s | _ => false end) l
  | _, _ => false
  end.

Fixpoint answers_fit (fs : list field) (l : list value) : bool :=
  match fs, l with
  | [], [] => true
  | f :: fs', a :: l' => answer_fits (kind f) a && answers_fit fs' l'
  | _, _ => false
  end.

Definition entry_fits (sec : repeated_section) (e : entry_input) : bool :=
  truthy (key_answer e) && answers_fit (fields sec) (answers e).

Definition typed_lines (l : list value) : list (option string) :=
  flat_map (fun x => match x with VStr s => [Some s] | _ => [] end) l.

Definition typed_answer (a : value) : list (option string) :=
  match a with
  | VStr s => [Some s]
  | VList l => (typed_lines l ++ [Some EmptyString])%list
  | _ => []
  end.

Definition typed (e : entry_input) : list (option string) :=
  Some (key_answer e) :: flat_map typed_answer (answers e).

Definition entry_value (sec : repeated_section) (e : entry_input) : value :=
  VDict ((key_field sec, VStr (key_answer e))
           :: combine (map field_name (fields sec)) (answers e)).

(** ** Files and processes *)

(** What launching a command does: the executable is not found; or it
    is there and cannot be started (no permission to execute it, a
    component of its path that is not a directory, ...), which is an
    [OSError] of another kind; or it runs to its end, leaving an exit
    code, its captured output and the files as it left them. *)
Inductive spawn_result : Type :=
| NotFound
| LaunchError (name : string)
| Exited (returncode : Z) (output : string) (stderr : string)
         (files_after : gmap string string).

(** [os.path.exists(path)] *)
Definition path_exists (path : string) : M bool :=
  fun w => (Ret (bool_decide (is_Some (files w !! path))), w).

(** [os.remove(path)] *)
Definition os_remove (path : string) : M unit :=
  fun w =>
    match files w !! path with
    | Some _ => (Ret tt, set_files (delete path (files w)) w)
    | None => (Raise FileNotFoundError, w)
    end.

(** [with open(path, "w", encoding="utf-8") as fh: fh.write(text)] *)
Definition write_file (path text : string) : M unit :=
  fun w => (Ret tt, set_files (<[path := text]> (files w)) w).

(** [f"{n}"] for an [int]. *)
Definition str_of_int (n : Z) : string := NilZero.string_of_int (Z.to_int n).

Definition output_filename_base : string := "resume".
Definition tex_filename : string := output_filename_base ++ ".tex".
Definition extensions_to_clean : list string := [".aux"; ".log"; ".out"].

Definition success_message : string :=
  "✅ Success! Your resume has been generated as '"
    ++ output_filename_base ++ ".pdf'. 🎉".

Definition not_found_messages : list string :=
  [ newline ++ "❌ Error: 'pdflatex' command not found.";
    "Please ensure you have a LaTeX distribution (like MiKTeX, TeX Live, or MacTeX) installed and in your system's PATH." ].

Section Environment.

(** The operating system: what running a command line does on the
    files of the working directory. *)
Variable exec : list string -> gmap string string -> spawn_result.

(** [jinja2]: rendering a template source with the record. *)
Variable render : string -> Dict.t value -> exn + string.

(** [bytes.decode('utf-8', errors='ignore')] and [str.strip()]. *)
Variable decode_ignore : string -> string.
Variable str_strip : string -> string.

(** [subprocess.run(argv, stdout=PIPE, stderr=PIPE, check=True)];
    the result is the pair of the captured streams. *)
Definition subprocess_run_check (argv : list string) : M (string * string) :=
  fun w =>
    let w1 := set_spawned (spawned w ++ [argv])%list w in
    match exec argv (files w1) with
    | NotFound => (Raise FileNotFoundError, w1)
    | LaunchError name => (Raise (OtherOSError name), w1)
    | Exited rc out err fs =>
        if (rc =? 0)%Z then (Ret (out, err), set_files fs w1)
        else (Raise (CalledProcessError rc out err), set_files fs w1)
    end.

Definition collect_technical_skills : M unit :=
  print (newline ++ "--- Technical Skills ---") ;;
  skills <-
    (fix each (categories : list string) (skills : Dict.t value)
       : M (Dict.t value) :=
       match categories with
       | [] => ret skills
       | category :: categories' =>
           user_input <- get_user_input (category ++ " (comma-separated)") ;;
           if truthy user_input
           then each categories'
                  (Dict.set skills category
                     (VList (map (fun skill => VStr (str_strip skill))
                                 (split_on "," user_input))))
           else each categories' skills
       end)
      [ "Languages"; "Frameworks"; "ML frameworks"; "DevOps and API Tools";
        "Tools"; "Database" ]
      [] ;;
  resume_data_set "technical_skills" (VDict skills).

Definition pdflatex_argv : list string :=
  ["pdflatex"; "-interaction=nonstopmode"; tex_filename].

Definition failure_messages (returncode : Z) (output : string)
  : list string :=
  [ newline ++ "❌ Error during PDF compilation. LaTeX returned a non-zero exit code: "
      ++ str_of_int returncode;
    "Please check the 'resume.log' file for detailed LaTeX errors.";
    newline ++ "--- LaTeX Output ---";
    decode_ignore output ].

(** Step 7, the [finally] clause. *)
Definition cleanup : M unit :=
  for_each extensions_to_clean
    (fun ext =>
       present <- path_exists (output_filename_base ++ ext) ;;
       if present then os_remove (output_filename_base ++ ext)
       else ret tt).

(** Step 6: the [try] statement of [main].  Both handlers [return];
    nothing follows the statement in [main], so they end the run. *)
Definition compile_pdf : M unit :=
  try_finally
    (try_except
       (for_each (seq 0 2)
          (fun i => process <- subprocess_run_check pdflatex_argv ;; ret tt) ;;
        print success_message)
       (fun e =>
          match e with
          | FileNotFoundError => Some (for_each not_found_messages print)
          | CalledProcessError returncode output _ =>
              Some (for_each (failure_messages returncode output) print)
          | _ => None
          end))
    cleanup.

Definition main : M unit :=
  print "Welcome to the Python Resume Builder! 📝" ;;
  print "Please fill in the details for your resume." ;;
  collect_personal_info ;;
  collect_summary ;;
  collect_technical_skills ;;
  collect_experience ;;
  collect_internships ;;
  collect_education ;;
  collect_projects ;;
  collect_publications ;;
  sanitized_resume_data <-
    (fun w => (Ret (sanitize_data (VDict (resume_data w))), w)) ;;
  output_from_template <-
    (fun w =>
       match files w !! "template.tex", sanitized_resume_data with
       | None, _ => (Raise (TemplateNotFound "template.tex"), w)
       | Some source, VDict d =>
           match render source d with
           | inl e => (Raise e, w)
           | inr text => (Ret text, w)
           end
       | Some _, _ => (Raise (TemplateError "render"), w)
       end) ;;
  write_file tex_filename output_from_template ;;
  print (newline ++ "✅ '" ++ tex_filename ++ "' has been created.") ;;
  print "Compiling to PDF... this may take a moment. ⏳" ;;
  compile_pdf.

End Environment.

(** ** Vocabulary of the statements *)

(** The world after reading: what was left on the terminal and what was
    written to it. *)
Definition moved (rest : list (option string)) (out : list string)
           (w : world) : world :=
  set_stdin rest (set_stdout (stdout w ++ out)%list w).

(** What [get_list_input] prints before it reads. *)
Definition list_input_header (prompt : string) : string :=
  "Enter " ++ prompt
    ++ " (one item per line). Press Enter on an empty line to finish:"
    ++ newline.

(** What [collect_summary] prints before it reads. *)
Definition summary_header : list string :=
  [ (newline ++ "--- Professional Summary ---") ++ newline;
    "Enter your professional summary (a few sentences). Press Ctrl+D (Unix) or Ctrl+Z (Windows) then Enter when done." ++ newline ].

(** A terminal at rest, the given events pending. *)
Definition terminal (events : list (option string)) : world :=
  World events [] ∅ [] [].

(** The scenario of the specification: one experience entry. *)
Definition scenario_entry : entry_input :=
  EntryInput "Software Engineer"
    [ VStr "Acme & Co"; VStr "May 2025"; VStr "Present";
      VList [VStr "Built 50% faster pipeline"] ].

Definition scenario_terminal : world :=
  terminal [ Some "Software Engineer"; Some "Acme & Co"; Some "May 2025";
             Some "Present"; Some "Built 50% faster pipeline"; Some "";
             Some ""; Some "B.E." ].

(** The working directory without the three auxiliary files. *)
Definition cleaned (fs : gmap string string) : gmap string string :=
  delete "resume.out" (delete "resume.log" (delete "resume.aux" fs)).

(** What [print] writes for each message of a list. *)
Definition printed (messages : list string) : list string :=
  map (fun m => m ++ newline) messages.

(** How the compilation stage can end: the three ways the [try]
    statement provides for, and the launch failing with an [OSError]
    that no [except] clause catches. *)
Inductive exit_path : Type :=
| Compiled
| CompilerFailed (returncode : Z) (output : string)
| CompilerNotFound
| LaunchFailed (name : string).

Definition report (decode_ignore : string -> string) (p : exit_path)
  : list string :=
  match p with
  | Compiled => [success_message]
  | CompilerFailed rc out => failure_messages decode_ignore rc out
  | CompilerNotFound => not_found_messages
  | LaunchFailed _ => []
  end.

(** What the stage ends with on each path: only the uncaught exception
    leaves it. *)
Definition ending (p : exit_path) : outcome unit :=
  match p with
  | LaunchFailed name => Raise (OtherOSError name)
  | _ => Ret tt
  end.

(** The path the stage takes from a working directory, with the number
    of times the compiler is launched and the files it leaves. *)
Definition compile_path
           (exec : list string -> gmap string string -> spawn_result)
           (fs : gmap string string)
  : exit_path * nat * gmap string string :=
  match exec pdflatex_argv fs with
  | NotFound => (CompilerNotFound, 1, fs)
  | LaunchError name => (LaunchFailed name, 1, fs)
  | Exited rc1 out1 _ fs1 =>
      if (rc1 =? 0)%Z then
        match exec pdflatex_argv fs1 with
        | NotFound => (CompilerNotFound, 2, fs1)
        | LaunchError name => (LaunchFailed name, 2, fs1)
        | Exited rc2 out2 _ fs2 =>
            if (rc2 =? 0)%Z then (Compiled, 2, fs2)
            else (CompilerFailed rc2 out2, 2, fs2)
        end
      else (CompilerFailed rc1 out1, 1, fs1)
  end.

(** A compiler that fails on its first run, leaving a log. *)
Definition failing_pdflatex (argv : list string) (fs : gmap string string)
  : spawn_result :=
  Exited 1 "! Undefined control sequence." ""
         (<["resume.log" := "This is pdfTeX"]> fs).

(** A compiler that writes a log and fails on its second run. *)
Definition failing_second_run (argv : list string) (fs : gmap string string)
  : spawn_result :=
  match fs !! "resume.aux" with
  | None => Exited 0 "pass 1" ""
                   (<["resume.log" := "pass 1"]> (<["resume.aux" := "refs"]> fs))
  | Some _ => Exited 2 "! Emergency stop." ""
                     (<["resume.log" := "pass 2"]> fs)
  end.

(** A working directory holding only the rendered document. *)
Definition clean_directory : world :=
  World [] [] (<["resume.tex" := "\documentclass{article}"]> ∅) [] [].

(** A compiler that is installed and may not be executed. *)
Definition forbidden_pdflatex (argv : list string) (fs : gmap string string)
  : spawn_result :=
  LaunchError "PermissionError".

(** An environment without the compiler. *)
Definition no_pdflatex (argv : list string) (fs : gmap string string)
  : spawn_result :=
  NotFound.

(** A working directory with leftovers of an earlier run. *)
Definition stale_directory : world :=
  World [] [] (<["resume.aux" := "old"]> (<["resume.log" := "old"]>
               (<["resume.tex" := "\documentclass{article}"]> ∅))) [] [].

(** A computation that ends (it is not cut short by the bound of a
    loop) and leaves no more on the terminal than it found. *)
Definition steady {A} (m : M A) : Prop :=
  forall w,
    fst (m w) <> Diverge /\ length (stdin (snd (m w))) <= length (stdin w).

(** ** Reading an escaped text back

    [unescape_from skip s] undoes the table from the left: a backslash
    before one of the eight characters gives that character, a glyph
    command with its group gives [~] or [^], any other character is
    itself.  [skip] counts the characters that remain of the sequence
    just read. *)
Fixpoint unescape_from (skip : nat) (s : string) : string :=
  match s with
  | EmptyString => EmptyString
  | String c rest =>
      match skip with
      | S k => unescape_from k rest
      | O =>
          if Ascii.eqb c "\" then
            match rest with
            | EmptyString => String c EmptyString
            | String d _ =>
                if is_backslash_escaped d
                then String d (unescape_from 1 rest)
                else if Re.starts_with "textasciitilde{}" rest
                     then String "~" (unescape_from 16 rest)
                else if Re.starts_with "textasciicircum{}" rest
                     then String "^" (unescape_from 17 rest)
                else String c (unescape_from 0 rest)
            end
          else String c (unescape_from 0 rest)
      end
  end.

Definition unescape (s : string) : string := unescape_from 0 s.

(** The same for every string leaf of a value. *)
Definition unsanitize (v : value) : value := map_strings unescape v.

(** Number of characters of the table in a string. *)
Fixpoint count_special (s : string) : nat :=
  match s with
  | EmptyString => 0
  | String c s' => (if is_special c then 1 else 0) + count_special s'
  end.

(** A list of keys in which none is longer than one before it. *)
Fixpoint longest_first (l : list string) : Prop :=
  match l with
  | [] => True
  | x :: l' =>
      (forall y, In y l' -> (str_len y <= str_len x)%nat)
      /\ longest_first l'
  end.

(** Several assignments [d[k] = v], in order. *)
Definition dict_update {A} (d : Dict.t A) (kvs : list (string * A))
  : Dict.t A :=
  fold_left (fun d kv => Dict.set d (fst kv) (snd kv)) kvs d.

(** The keys [collect_personal_info] assigns, in the order it asks. *)
Definition personal_keys : list string :=
  ["name"; "location"; "phone"; "email"; "portfolio"; "linkedin"; "github"].

(** The categories [collect_technical_skills] asks for, in order. *)
Definition skill_categories : list string :=
  [ "Languages"; "Frameworks"; "ML frameworks"; "DevOps and API Tools";
    "Tools"; "Database" ].

(** The skills of one answer: the pieces between commas, stripped. *)
Definition skills_in (str_strip : string -> string) (answer : string)
  : value :=
  VList (map (fun skill => VStr (str_strip skill)) (split_on "," answer)).

(** The mapping the answers are to become: a category is present when
    its answer is not blank. *)
Definition skills_of (str_strip : string -> string) (answers : list string)
  : Dict.t value :=
  flat_map (fun ca => if truthy (snd ca)
                      then [(fst ca, skills_in str_strip (snd ca))]
                      else [])
           (combine skill_categories answers).

(** The input is over: the stream is closed, or the next event is an
    end-of-input signal. *)
Definition at_end (tail : list (option string)) : Prop :=
  tail = [] \/ exists rest, tail = None :: rest.

(** A computation that only talks to the terminal: it leaves the record,
    the files and the processes alone, and can fail only with
    [EOFError]. *)
Definition reading {A} (m : M A) : Prop :=
  forall w,
    resume_data (snd (m w)) = resume_data w /\
    files (snd (m w)) = files w /\
    spawned (snd (m w)) = spawned w /\
    (forall e, fst (m w) = Raise e -> e = EOFError).

(** A computation of the data collector: it may assign to the record,
    and for the rest is as above. *)
Definition collecting {A} (m : M A) : Prop :=
  forall w,
    files (snd (m w)) = files w /\
    spawned (snd (m w)) = spawned w /\
    (forall e, fst (m w) = Raise e -> e = EOFError).



(** The world after a collector: the terminal has moved on and the
    record has changed; files and processes are as they were. *)
Definition advance (rest : list (option string)) (out : list string)
           (d : Dict.t value) (w : world) : world :=
  World rest (stdout w ++ out)%list (files w) (spawned w) d.

(** ** A whole session

    What the user types from the first prompt to the last: seven
    personal answers, the lines of the summary closed by an end-of-input
    signal, six answers for the skills, and the entries of the five
    repeated sections, each section closed by a blank key answer. *)
Record session : Type := Session {
  personal : list string;
  summary : list string;
  skills : list string;
  experience : list entry_input;
  internships : list entry_input;
  education : list entry_input;
  projects : list entry_input;
  publications : list entry_input
}.

Definition session_fits (s : session) : bool :=
  Nat.eqb (length (personal s)) 7 && Nat.eqb (length (skills s)) 6
  && forallb (entry_fits experience_section) (experience s)
  && forallb (entry_fits internships_section) (internships s)
  && forallb (entry_fits education_section) (education s)
  && forallb (entry_fits projects_section) (projects s)
  && forallb (entry_fits publications_section) (publications s).

Definition section_events (es : list entry_input) : list (option string) :=
  (flat_map typed es ++ [Some EmptyString])%list.

Definition session_events (s : session) : list (option string) :=
  (map Some (personal s)
   ++ (map Some (summary s) ++ [None])
   ++ map Some (skills s)
   ++ section_events (experience s)
   ++ section_events (internships s)
   ++ section_events (education s)
   ++ section_events (projects s)
   ++ section_events (publications s))%list.

(** The record the session is to become, in the order of assignment. *)
Definition session_record (str_strip : string -> string) (s : session)
  : Dict.t value :=
  (combine personal_keys (map VStr (personal s))
   ++ [ ("summary", VStr (String.concat " " (summary s)));
        ("technical_skills", VDict (skills_of str_strip (skills s)));
        ("experience",
          VList (map (entry_value experience_section) (experience s)));
        ("internships",
          VList (map (entry_value internships_section) (internships s)));
        ("education",
          VList (map (entry_value education_section) (education s)));
        ("projects",
          VList (map (entry_value projects_section) (projects s)));
        ("publications",
          VList (map (entry_value publications_section) (publications s))) ])%list.

(** What [main] prints between the rendering and the compilation. *)
Definition created_messages : list string :=
  [ (newline ++ "✅ '" ++ tex_filename ++ "' has been created.") ++ newline;
    "Compiling to PDF... this may take a moment. ⏳" ++ newline ].

(** The session of the scenario: one experience entry, nothing else. *)
Definition scenario_session : session :=
  Session ["Ada"; "London"; "1"; "ada@x.org"; ""; ""; ""]
          ["Engineer."; "Loves systems."]
          ["Python, C"; ""; ""; ""; ""; ""]
          [scenario_entry] [] [] [] [].

(** A renderer that prints the company of the first experience entry. *)
Definition company_template (source : string) (d : Dict.t value)
  : exn + string :=
  match Dict.get d "experience" with
  | Some (VList (VDict e :: _)) =>
      match Dict.get e "company" with
      | Some (VStr c) => inr (source ++ c)
      | _ => inl (TemplateError "company")
      end
  | _ => inl (TemplateError "experience")
  end.

(** A compiler that succeeds and leaves a PDF, a log and an aux file. *)
Definition working_pdflatex (argv : list string) (fs : gmap string string)
  : spawn_result :=
  Exited 0 "Output written on resume.pdf" ""
         (<["resume.pdf" := "%PDF"]>
            (<["resume.log" := "log"]> (<["resume.aux" := "aux"]> fs))).

(** The sanitized record, item by item. *)
Definition sanitized_items (d : Dict.t value) : Dict.t value :=
  map (fun kv => (fst kv, sanitize_data (snd kv))) d.

(** A fresh process at the first prompt, the scenario about to be
    typed, with and without the template in the working directory. *)
Definition scenario_world : world :=
  World (session_events scenario_session) []
        (<["template.tex" := "Company: "]> ∅) [] [].

Definition scenario_world_no_template : world :=
  World (session_events scenario_session) [] ∅ [] [].

(** * Properties of the escaping *)

Lemma regex_alternatives :
  regex = ["\"; "&"; "%"; "$"; "#"; "_"; "{"; "}"; "~"; "^"].
Proof. reflexivity. Qed.

Lemma conv_item_of_match (s m : string) :
  Re.match_at regex s = Some m -> Dict.get conv m <> None.
Proof.
  rewrite regex_alternatives. cbn [Re.match_at].
  repeat (destruct (Re.starts_with _ s);
          [intros [= <-]; vm_compute; discriminate|]).
  discriminate.
Qed.

Lemma sub_from_cons (c : ascii) (s : string) :
  Re.sub_from regex conv_item 0 (String c s)
  = escape_char c ++ Re.sub_from regex conv_item 0 s.
Proof.
  rewrite regex_alternatives.
  destruct c as [[] [] [] [] [] [] [] []]; reflexivity.
Qed.

Lemma escape_latex_str_simultaneous (s : string) :
  escape_latex_str s = simultaneous_subst s.
Proof.
  unfold escape_latex_str, Re.sub.
  induction s as [|c s IH]; [reflexivity|].
  rewrite sub_from_cons. cbn [simultaneous_subst]. now rewrite IH.
Qed.

(** *** Strings: append *)

Lemma string_app_cons (x : ascii) (a b : string) :
  String x a ++ b = String x (a ++ b).
Proof. reflexivity. Qed.

Lemma string_app_assoc (a b c : string) : (a ++ b) ++ c = a ++ (b ++ c).
Proof.
  induction a as [|x a IH]; [reflexivity|].
  now rewrite !string_app_cons, IH.
Qed.

Lemma string_app_length (a b : string) :
  String.length (a ++ b) = (String.length a + String.length b)%nat.
Proof.
  induction a as [|x a IH]; [reflexivity|].
  rewrite string_app_cons. cbn [String.length]. now rewrite IH.
Qed.

Lemma simultaneous_subst_app (a b : string) :
  simultaneous_subst (a ++ b) = simultaneous_subst a ++ simultaneous_subst b.
Proof.
  induction a as [|x a IH]; [reflexivity|].
  change (simultaneous_subst (String x a ++ b))
    with (escape_char x ++ simultaneous_subst (a ++ b)).
  change (simultaneous_subst (String x a))
    with (escape_char x ++ simultaneous_subst a).
  now rewrite IH, string_app_assoc.
Qed.

(** *** One character at a time *)

(** Case analysis on the 256 values of a character. *)
Ltac each_char c := destruct c as [[] [] [] [] [] [] [] []].

Lemma well_escaped_escape_char (c : ascii) (t : string) :
  well_escaped_from 0 (escape_char c ++ t) = well_escaped_from 0 t.
Proof. each_char c; reflexivity. Qed.

Lemma occurs_escape_char (g c : ascii) (t : string) :
  g = "~"%char \/ g = "^"%char ->
  occurs g (escape_char c ++ t) = occurs g t.
Proof. intros [-> | ->]; each_char c; reflexivity. Qed.

Lemma has_special_escape_char (c : ascii) (t : string) :
  has_special (escape_char c ++ t) = is_special c || has_special t.
Proof. each_char c; reflexivity. Qed.

Lemma escape_char_length (c : ascii) :
  if is_special c
  then (2 <= String.length (escape_char c))%nat
  else escape_char c = String c EmptyString.
Proof. each_char c; cbv; first [reflexivity | lia]. Qed.

Lemma simultaneous_subst_length (s : string) :
  (String.length s <= String.length (simultaneous_subst s))%nat.
Proof.
  induction s as [|c s IH]; cbn [simultaneous_subst String.length]; [lia|].
  rewrite string_app_length.
  pose proof (escape_char_length c) as Hc.
  destruct (is_special c); [lia|].
  rewrite Hc. cbn [String.length]. lia.
Qed.

Lemma simultaneous_subst_longer (s : string) :
  has_special s = true ->
  (String.length s < String.length (simultaneous_subst s))%nat.
Proof.
  induction s as [|c s IH];
    cbn [has_special simultaneous_subst String.length]; [discriminate|].
  rewrite string_app_length.
  pose proof (simultaneous_subst_length s) as Hle.
  pose proof (escape_char_length c) as Hc.
  destruct (is_special c); cbn [orb]; [lia|].
  intros Hs. specialize (IH Hs). rewrite Hc. cbn [String.length]. lia.
Qed.

Lemma simultaneous_subst_has_special (s : string) :
  has_special (simultaneous_subst s) = has_special s.
Proof.
  induction s as [|c s IH]; cbn [has_special simultaneous_subst];
    [reflexivity|].
  now rewrite has_special_escape_char, IH.
Qed.

Lemma simultaneous_subst_well_escaped (s : string) :
  well_escaped (simultaneous_subst s) = true.
Proof.
  unfold well_escaped.
  induction s as [|c s IH]; cbn [simultaneous_subst]; [reflexivity|].
  now rewrite well_escaped_escape_char.
Qed.

Lemma simultaneous_subst_no_glyph (g : ascii) (s : string) :
  g = "~"%char \/ g = "^"%char ->
  occurs g (simultaneous_subst s) = false.
Proof.
  intros Hg. induction s as [|c s IH]; cbn [simultaneous_subst];
    [reflexivity|].
  now rewrite occurs_escape_char.
Qed.

(** The reading of the output is not vacuous: raw special characters,
    a dangling backslash and a glyph command without its group are all
    rejected. *)
Example well_escaped_rejects :
  well_escaped "R&D" = false /\ well_escaped "a{b}" = false /\
  well_escaped "50%" = false /\ well_escaped "x~y" = false /\
  well_escaped "\" = false /\ well_escaped "\textasciitilde" = false /\
  well_escaped "\x" = false /\ well_escaped "\\\" = false.
Proof. repeat split. Qed.

Example well_escaped_accepts :
  well_escaped "R\&D \{50\%\} \\ \textasciicircum{}2 \_" = true.
Proof. reflexivity. Qed.

(** C1. For every string, the output of the sanitizer is well escaped:
    each of the characters [\ & % $ # _ { }] occurs in it only inside an
    escape sequence of the table, no [~] and no [^] is left in it, and
    each [~] and [^] of the input has become [\textasciitilde{}] and
    [\textasciicircum{}]. *)
Theorem escape_latex_no_unescaped (s s1 s2 : string) :
  escape_latex_special_chars (VStr s) = VStr (escape_latex_str s) /\
  well_escaped (escape_latex_str s) = true /\
  occurs "~" (escape_latex_str s) = false /\
  occurs "^" (escape_latex_str s) = false /\
  escape_latex_str (s1 ++ String "~" s2)
  = escape_latex_str s1 ++ "\textasciitilde{}" ++ escape_latex_str s2 /\
  escape_latex_str (s1 ++ String "^" s2)
  = escape_latex_str s1 ++ "\textasciicircum{}" ++ escape_latex_str s2.
Proof.
  split; [reflexivity|].
  rewrite !escape_latex_str_simultaneous.
  split; [apply simultaneous_subst_well_escaped|].
  split; [apply simultaneous_subst_no_glyph; now left|].
  split; [apply simultaneous_subst_no_glyph; now right|].
  now rewrite !simultaneous_subst_app.
Qed.

(** C2. The regular-expression substitution is one simultaneous pass
    from left to right: its result is the concatenation, in order, of
    what the table gives for each character of the input, looked up
    once; the text emitted for a character is not substituted again, so
    the braces of [\textasciitilde{}] stay as they are. *)
Theorem escape_latex_single_pass (s t : string) :
  escape_latex_str s = simultaneous_subst s /\
  escape_latex_str (s ++ t) = escape_latex_str s ++ escape_latex_str t /\
  escape_latex_str "~" = "\textasciitilde{}" /\
  escape_latex_str "^" = "\textasciicircum{}" /\
  escape_latex_str "a~{b}" = "a\textasciitilde{}\{b\}".
Proof.
  split; [apply escape_latex_str_simultaneous|].
  split; [|repeat split].
  rewrite !escape_latex_str_simultaneous. apply simultaneous_subst_app.
Qed.

(** C10. Escaping is not idempotent: a second application escapes the
    backslashes and braces the first one introduced.  [&] becomes [\&]
    and then [\\\&]; and so it is for every string with a special
    character. *)
Theorem escape_latex_not_idempotent :
  escape_latex_str "&" = "\&" /\
  escape_latex_str (escape_latex_str "&") = "\\\&" /\
  escape_latex_str (escape_latex_str "&") <> escape_latex_str "&" /\
  escape_latex_str (escape_latex_str "~") = "\\textasciitilde\{\}" /\
  forall s : string,
    has_special s = true ->
    escape_latex_str (escape_latex_str s) <> escape_latex_str s.
Proof.
  split; [reflexivity|]. split; [reflexivity|].
  split; [discriminate|]. split; [reflexivity|].
  intros s Hs. rewrite !escape_latex_str_simultaneous. intros E.
  pose proof (simultaneous_subst_longer (simultaneous_subst s)) as L.
  rewrite simultaneous_subst_has_special, E in L.
  specialize (L Hs). lia.
Qed.

Lemma escape_latex_not_idempotent_witness :
  has_special "50% & more" = true /\
  escape_latex_str (escape_latex_str "50% & more")
  <> escape_latex_str "50% & more".
Proof.
  split; [reflexivity|].
  apply (proj2 (proj2 (proj2 (proj2 escape_latex_not_idempotent)))).
  reflexivity.
Defined.

(** * Properties of the traversal *)

(** Induction on nested values. *)
Lemma value_nested_ind (P : value -> Prop)
  (Hstr : forall s, P (VStr s))
  (Hlist : forall l, Forall P l -> P (VList l))
  (Hdict : forall d, Forall (fun kv => P (snd kv)) d -> P (VDict d))
  (Hint : forall z, P (VInt z))
  (Hbool : forall b, P (VBool b))
  (Hnone : P VNone) :
  forall v, P v.
Proof.
  fix self 1. intros [s | l | d | z | b |].
  - apply Hstr.
  - apply Hlist. induction l as [|x l IHl]; constructor; [apply self | exact IHl].
  - apply Hdict. induction d as [|[k x] d IHd]; constructor;
      [apply self | exact IHd].
  - apply Hint.
  - apply Hbool.
  - exact Hnone.
Qed.

Section DictLemmas.
Context {A : Type}.

Lemma dict_set_fresh (d : Dict.t A) (k : string) (v : A) :
  existsb (String.eqb k) (Dict.keys d) = false ->
  Dict.set d k v = (d ++ [(k, v)])%list.
Proof.
  induction d as [|[k' v'] d IH]; cbn; [reflexivity|].
  rewrite String.eqb_sym. destruct (String.eqb k' k); cbn; [discriminate|].
  intros H. now rewrite IH.
Qed.

Lemma dict_keys_app (d1 d2 : Dict.t A) :
  Dict.keys (d1 ++ d2)%list = (Dict.keys d1 ++ Dict.keys d2)%list.
Proof. apply map_app. Qed.

Lemma dict_get_map {B} (g : A -> B) (d : Dict.t A) (k : string) :
  Dict.get (map (fun kv => (fst kv, g (snd kv))) d) k
  = option_map g (Dict.get d k).
Proof.
  induction d as [|[k' v'] d IH]; cbn; [reflexivity|].
  now destruct (String.eqb k' k).
Qed.

Lemma dict_keys_map {B} (g : A -> B) (d : Dict.t A) :
  Dict.keys (map (fun kv => (fst kv, g (snd kv))) d) = Dict.keys d.
Proof.
  unfold Dict.keys. rewrite map_map. now apply map_ext.
Qed.
End DictLemmas.

Lemma existsb_app_false {A} (p : A -> bool) (l1 l2 : list A) :
  existsb p (l1 ++ l2)%list = false <->
  existsb p l1 = false /\ existsb p l2 = false.
Proof. rewrite existsb_app. apply orb_false_iff. Qed.

(** A comprehension over distinct keys is a map over the items: every
    assignment appends. *)
Lemma dict_comprehension_from {A B} (f : A -> B) (d : Dict.t A) :
  forall acc : Dict.t B,
    distinct (Dict.keys d) = true ->
    (forall k, In k (Dict.keys d) ->
               existsb (String.eqb k) (Dict.keys acc) = false) ->
    fold_left (fun acc kv => Dict.set acc (fst kv) (f (snd kv))) d acc
    = (acc ++ map (fun kv => (fst kv, f (snd kv))) d)%list.
Proof.
  induction d as [|[k v] d IH]; intros acc Hd Hacc; cbn.
  - now rewrite app_nil_r.
  - cbn in Hd. apply andb_true_iff in Hd as [Hk Hd].
    apply negb_true_iff in Hk.
    rewrite dict_set_fresh by (apply Hacc; now left).
    rewrite IH; [now rewrite <- app_assoc | exact Hd |].
    intros k' Hin. rewrite dict_keys_app. apply existsb_app_false.
    split; [apply Hacc; now right|].
    cbn. rewrite orb_false_r.
    destruct (String.eqb_spec k' k) as [-> | Hne]; [|reflexivity].
    exfalso. assert (existsb (String.eqb k) (Dict.keys d) = true) as E.
    { apply existsb_exists. exists k. split; [exact Hin | apply String.eqb_refl]. }
    unfold Dict.keys in *. congruence.
Qed.

Lemma dict_comprehension_map {A B} (f : A -> B) (d : Dict.t A) :
  distinct (Dict.keys d) = true ->
  dict_comprehension f d = map (fun kv => (fst kv, f (snd kv))) d.
Proof.
  intros Hd. unfold dict_comprehension, Dict.items.
  now rewrite dict_comprehension_from.
Qed.

Lemma sanitize_data_map_strings (data : value) :
  is_record data = true ->
  sanitize_data data = map_strings escape_latex_str data.
Proof.
  induction data as [s | l IH | d IH | z | b |] using value_nested_ind;
    cbn [is_record sanitize_data map_strings]; intros Hwf; try reflexivity.
  - f_equal. apply map_ext_in. intros x Hx.
    rewrite List.Forall_forall in IH. apply IH; [exact Hx|].
    rewrite List.forallb_forall in Hwf. now apply Hwf.
  - apply andb_true_iff in Hwf as [Hd Hwf].
    rewrite dict_comprehension_map by exact Hd.
    f_equal. apply map_ext_in. intros kv Hkv. f_equal.
    rewrite List.Forall_forall in IH. apply IH; [exact Hkv|].
    rewrite List.forallb_forall in Hwf. now apply Hwf.
Qed.

Lemma shape_of_map_strings (f : string -> string) (v : value) :
  shape_of (map_strings f v) = shape_of v.
Proof.
  induction v as [s | l IH | d IH | z | b |] using value_nested_ind;
    cbn [shape_of map_strings]; try reflexivity.
  - f_equal. rewrite map_map. apply map_ext_in. intros x Hx.
    rewrite List.Forall_forall in IH. now apply IH.
  - f_equal. rewrite map_map. apply map_ext_in. intros kv Hkv. cbn. f_equal.
    rewrite List.Forall_forall in IH. now apply IH.
Qed.

Lemma is_record_map_strings (f : string -> string) (v : value) :
  is_record (map_strings f v) = is_record v.
Proof.
  induction v as [s | l IH | d IH | z | b |] using value_nested_ind;
    cbn [is_record map_strings]; try reflexivity.
  - induction IH as [|x l Hx _ IHl]; cbn; [reflexivity|]. now rewrite Hx, IHl.
  - rewrite dict_keys_map. f_equal.
    induction IH as [|kv d' Hkv _ IHd]; cbn; [reflexivity|].
    now rewrite Hkv, IHd.
Qed.

Lemma simultaneous_subst_plain (s : string) :
  has_special s = false -> simultaneous_subst s = s.
Proof.
  induction s as [|c s IH]; cbn [has_special simultaneous_subst];
    [reflexivity|].
  intros H. apply orb_false_iff in H as [Hc Hs].
  pose proof (escape_char_length c) as E. rewrite Hc in E.
  now rewrite E, IH.
Qed.

Lemma map_strings_id (f : string -> string) (v : value) :
  (forall s, has_special s = false -> f s = s) ->
  no_special v = true -> map_strings f v = v.
Proof.
  intros Hf.
  induction v as [s | l IH | d IH | z | b |] using value_nested_ind;
    cbn [no_special map_strings]; intros Hv; try reflexivity.
  - f_equal. apply Hf. now apply negb_true_iff.
  - f_equal. induction IH as [|x l Hx _ IHl]; [reflexivity|].
    cbn in Hv. apply andb_true_iff in Hv as [Hv1 Hv2].
    cbn. now rewrite Hx, IHl.
  - f_equal. induction IH as [|[k x] d' Hkv _ IHd]; [reflexivity|].
    cbn in Hv. apply andb_true_iff in Hv as [Hv1 Hv2].
    cbn in *. now rewrite Hkv, IHd.
Qed.

(** C3. On a nested record, [sanitize_data] returns a record of the same
    shape: the same keys in every mapping, the same length of every
    sequence, the same nesting; keys are untouched, a value under a key
    or at an index is the sanitized value that was there, a string leaf
    is escaped and any other leaf is returned unchanged. *)
Theorem sanitize_data_same_shape (data : value) :
  is_record data = true ->
  shape_of (sanitize_data data) = shape_of data /\
  sanitize_data data = map_strings escape_latex_str data /\
  is_record (sanitize_data data) = true /\
  (forall d, data = VDict d ->
     exists d', sanitize_data data = VDict d' /\
                Dict.keys d' = Dict.keys d /\
                forall k, Dict.get d' k = option_map sanitize_data (Dict.get d k)) /\
  (forall l, data = VList l ->
     exists l', sanitize_data data = VList l' /\
                length l' = length l /\
                forall i, nth_error l' i = option_map sanitize_data (nth_error l i)) /\
  (forall s, data = VStr s ->
     sanitize_data data = escape_latex_special_chars (VStr s)) /\
  (shape_of data = SOther -> sanitize_data data = data).
Proof.
  intros Hwf.
  pose proof (sanitize_data_map_strings data Hwf) as E.
  split; [rewrite E; apply shape_of_map_strings|].
  split; [exact E|].
  split; [rewrite E, is_record_map_strings; exact Hwf|].
  split; [|split; [|split]].
  - intros d ->. cbn [is_record] in Hwf.
    apply andb_true_iff in Hwf as [Hd _].
    exists (dict_comprehension sanitize_data d). split; [reflexivity|].
    rewrite dict_comprehension_map by exact Hd.
    split; [apply dict_keys_map | intros k; apply dict_get_map].
  - intros l ->. exists (map sanitize_data l). split; [reflexivity|].
    split; [apply length_map | intros i; apply nth_error_map].
  - intros s ->. reflexivity.
  - destruct data; cbn; try discriminate; reflexivity.
Qed.

Lemma sanitize_data_same_shape_witness :
  is_record sample_record = true /\
  shape_of (sanitize_data sample_record) = shape_of sample_record.
Proof.
  split; [reflexivity|].
  apply (sanitize_data_same_shape sample_record). reflexivity.
Defined.

(** The scenario of the specification: the company and the description
    line of the entry come out escaped. *)
Example sanitize_sample_record :
  sanitize_data sample_record =
  VDict [ ("name", VStr "Ada\_L");
          ("technical_skills", VDict [("Languages", VList [VStr "C\#"; VStr "R"])]);
          ("experience",
            VList [VDict [ ("role", VStr "Software Engineer");
                           ("company", VStr "Acme \& Co");
                           ("description",
                             VList [VStr "Built 50\% faster pipeline"]) ]]);
          ("pages", VInt 2);
          ("draft", VBool false);
          ("photo", VNone) ].
Proof. reflexivity. Qed.

(** C4. A record none of whose strings holds a special character is
    returned as it is. *)
Theorem sanitize_data_identity (data : value) :
  is_record data = true ->
  no_special data = true ->
  sanitize_data data = data.
Proof.
  intros Hwf Hplain. rewrite sanitize_data_map_strings by exact Hwf.
  apply map_strings_id; [|exact Hplain].
  intros s Hs. rewrite escape_latex_str_simultaneous.
  now apply simultaneous_subst_plain.
Qed.

Lemma sanitize_data_identity_witness :
  is_record plain_record = true /\
  no_special plain_record = true /\
  sanitize_data plain_record = plain_record.
Proof.
  split; [reflexivity|]. split; [reflexivity|].
  apply (sanitize_data_identity plain_record); reflexivity.
Defined.

(** * Properties of the data collector *)

Lemma moved_moved rest1 out1 rest2 out2 w :
  moved rest2 out2 (moved rest1 out1 w) = moved rest2 (out1 ++ out2)%list w.
Proof. unfold moved, set_stdin, set_stdout. cbn. now rewrite <- app_assoc. Qed.

Lemma stdin_moved rest out w : stdin (moved rest out w) = rest.
Proof. reflexivity. Qed.

Lemma input_line (prompt line : string) rest w :
  stdin w = Some line :: rest ->
  input prompt w = (Ret line, moved rest [prompt] w).
Proof. destruct w as [i o f s r]; cbn. now intros ->. Qed.

Lemma input_eof (prompt : string) w :
  stdin w = [] \/ (exists rest, stdin w = None :: rest) ->
  exists w', input prompt w = (Raise EOFError, w').
Proof.
  destruct w as [i o f s r]; cbn. intros [-> | [rest ->]]; cbn; eauto.
Qed.

Lemma print_run (s : string) w :
  print s w = (Ret tt, moved (stdin w) [s ++ newline] w).
Proof. now destruct w. Qed.

Lemma bind_ret {A B} (m : M A) (k : A -> M B) w a w' :
  m w = (Ret a, w') -> bind m k w = k a w'.
Proof. unfold bind. now intros ->. Qed.

Lemma bind_raise {A B} (m : M A) (k : A -> M B) w e w' :
  m w = (Raise e, w') -> bind m k w = (Raise e, w').
Proof. unfold bind. now intros ->. Qed.

Lemma truthy_false (s : string) : truthy s = false <-> s = "".
Proof. destruct s; cbn; split; congruence. Qed.

(** *** [get_list_input] *)

Lemma list_input_loop (lines : list string) :
  forall (items : list string) rest fuel w,
    forallb truthy lines = true ->
    stdin w = (map Some lines ++ Some "" :: rest)%list ->
    length (stdin w) < fuel ->
    loop_fuel fuel
      (fun items : list string =>
         item <- input "> " ;;
         if negb (truthy item) then ret (Break items)
         else ret (Continue (items ++ [item])%list))
      items w
    = (Ret tt, (items ++ lines)%list,
       moved rest (repeat "> " (S (length lines))) w).
Proof.
  induction lines as [|l lines IH]; intros items rest fuel w Hl Hin Hfuel;
    (destruct fuel as [|fuel]; [lia|]); cbn [loop_fuel].
  - rewrite (bind_ret _ _ _ _ _ (input_line "> " "" rest w Hin)).
    cbn. now rewrite app_nil_r.
  - cbn in Hl. apply andb_true_iff in Hl as [Hl1 Hl2]. cbn in Hin.
    rewrite (bind_ret _ _ _ _ _ (input_line "> " l _ w Hin)).
    rewrite Hl1. cbn [negb ret].
    rewrite (IH _ rest); [| exact Hl2 | reflexivity |].
    + rewrite moved_moved, <- app_assoc. reflexivity.
    + rewrite stdin_moved. rewrite Hin in Hfuel. cbn in Hfuel. lia.
Qed.

Lemma list_input_loop_eof (lines : list string) :
  forall (items : list string) tail fuel w,
    forallb truthy lines = true ->
    stdin w = (map Some lines ++ tail)%list ->
    tail = [] \/ (exists rest, tail = None :: rest) ->
    length (stdin w) < fuel ->
    exists w', loop_fuel fuel
      (fun items : list string =>
         item <- input "> " ;;
         if negb (truthy item) then ret (Break items)
         else ret (Continue (items ++ [item])%list))
      items w
               = (Raise EOFError, (items ++ lines)%list, w').
Proof.
  induction lines as [|l lines IH]; intros items tail fuel w Hl Hin Ht Hfuel;
    (destruct fuel as [|fuel]; [lia|]); cbn [loop_fuel].
  - cbn in Hin. rewrite app_nil_r.
    destruct (input_eof "> " w) as [w' E].
    { destruct Ht as [-> | [rest ->]]; eauto. }
    rewrite (bind_raise _ _ _ _ _ E). eauto.
  - cbn in Hl. apply andb_true_iff in Hl as [Hl1 Hl2]. cbn in Hin.
    rewrite (bind_ret _ _ _ _ _ (input_line "> " l _ w Hin)).
    rewrite Hl1. cbn [negb ret].
    destruct (IH (items ++ [l])%list tail fuel
                 (moved (map Some lines ++ tail)%list ["> "] w))
      as [w' E]; [exact Hl2 | reflexivity | exact Ht | |].
    + rewrite stdin_moved. rewrite Hin in Hfuel. cbn in Hfuel. lia.
    + rewrite E, <- app_assoc. eauto.
Qed.

Lemma get_list_input_run (prompt : string) (lines : list string) rest w :
  forallb truthy lines = true ->
  stdin w = (map Some lines ++ Some "" :: rest)%list ->
  get_list_input prompt w
  = (Ret lines,
     moved rest (list_input_header prompt :: repeat "> " (S (length lines))) w).
Proof.
  intros Hl Hin. unfold get_list_input.
  rewrite (bind_ret _ _ _ _ _ (print_run _ w)).
  unfold locals_after, while_true.
  rewrite (list_input_loop lines [] rest); [| exact Hl | exact Hin | cbn; lia].
  rewrite moved_moved. cbn [app]. f_equal. f_equal. f_equal.
  unfold list_input_header. now rewrite !string_app_assoc.
Qed.

(** Without a blank line the stream ends first and [EOFError] leaves
    the function: no list is returned. *)
Lemma get_list_input_eof (prompt : string) (lines : list string) tail w :
  forallb truthy lines = true ->
  stdin w = (map Some lines ++ tail)%list ->
  tail = [] \/ (exists rest, tail = None :: rest) ->
  exists w', get_list_input prompt w = (Raise EOFError, w').
Proof.
  intros Hl Hin Ht. unfold get_list_input.
  rewrite (bind_ret _ _ _ _ _ (print_run _ w)).
  unfold locals_after, while_true.
  destruct (list_input_loop_eof lines [] tail
              (S (length (stdin (moved (stdin w)
                   [(("Enter " ++ prompt ++ " (one item per line). Press Enter on an empty line to finish:") ++ newline)%string] w))))
              (moved (stdin w)
                   [(("Enter " ++ prompt ++ " (one item per line). Press Enter on an empty line to finish:") ++ newline)%string] w))
    as [w' E]; [exact Hl | exact Hin | exact Ht | lia |].
  rewrite E. cbn. eauto.
Qed.

(** C6. [get_list_input] returns the lines that come before the first
    empty line, in their order, and consumes the empty line without
    storing it; when the first line is empty it returns the empty list. *)
Theorem get_list_input_until_blank
        (prompt : string) (lines : list string) rest w :
  forallb truthy lines = true ->
  stdin w = (map Some lines ++ Some "" :: rest)%list ->
  get_list_input prompt w
  = (Ret lines,
     moved rest (list_input_header prompt :: repeat "> " (S (length lines))) w)
  /\ (lines = [] -> fst (get_list_input prompt w) = Ret []).
Proof.
  intros Hl Hin. rewrite (get_list_input_run prompt lines rest w Hl Hin).
  split; [reflexivity | now intros ->].
Qed.

Lemma get_list_input_until_blank_witness :
  forallb truthy ["Built X"; "Led Y"] = true /\
  stdin (terminal [Some "Built X"; Some "Led Y"; Some ""; Some "next"])
  = (map Some ["Built X"; "Led Y"] ++ Some "" :: [Some "next"])%list /\
  fst (get_list_input "points"
         (terminal [Some "Built X"; Some "Led Y"; Some ""; Some "next"]))
  = Ret ["Built X"; "Led Y"].
Proof.
  split; [reflexivity|]. split; [reflexivity|].
  exact (f_equal fst
           (proj1 (get_list_input_until_blank "points" ["Built X"; "Led Y"]
                     [Some "next"]
                     (terminal [Some "Built X"; Some "Led Y"; Some "";
                                Some "next"])
                     eq_refl eq_refl))).
Defined.

(** *** [collect_summary] *)

Lemma input_closed (prompt : string) w :
  stdin w = [] -> input prompt w = (Raise EOFError, moved [] [prompt] w).
Proof. destruct w as [i o f s r]; cbn. now intros ->. Qed.

Lemma input_signal (prompt : string) rest w :
  stdin w = None :: rest ->
  input prompt w = (Raise EOFError, moved rest [prompt] w).
Proof. destruct w as [i o f s r]; cbn. now intros ->. Qed.

Lemma input_end (prompt : string) tail w :
  stdin w = tail ->
  tail = [] \/ (exists rest, tail = None :: rest) ->
  input prompt w = (Raise EOFError, moved (tl tail) [prompt] w).
Proof.
  intros Hin [-> | [rest ->]]; [now apply input_closed | now apply input_signal].
Qed.

Lemma summary_loop (lines : list string) :
  forall (acc : list string) tail fuel w,
    stdin w = (map Some lines ++ tail)%list ->
    tail = [] \/ (exists rest, tail = None :: rest) ->
    length (stdin w) < fuel ->
    loop_fuel fuel
      (fun summary_lines : list string =>
         line <- input "" ;;
         ret (Continue (summary_lines ++ [line])%list))
      acc w
    = (Raise EOFError, (acc ++ lines)%list,
       moved (tl tail) (repeat "" (S (length lines))) w).
Proof.
  induction lines as [|l lines IH]; intros acc tail fuel w Hin Ht Hfuel;
    (destruct fuel as [|fuel]; [lia|]); cbn [loop_fuel].
  - cbn in Hin. rewrite (bind_raise _ _ _ _ _ (input_end "" tail w Hin Ht)).
    now rewrite app_nil_r.
  - cbn in Hin. rewrite (bind_ret _ _ _ _ _ (input_line "" l _ w Hin)).
    cbn [ret]. rewrite (IH _ tail); [| reflexivity | exact Ht |].
    + rewrite moved_moved, <- app_assoc. reflexivity.
    + rewrite stdin_moved. rewrite Hin in Hfuel. cbn in Hfuel. lia.
Qed.

Lemma dict_get_set {A} (d : Dict.t A) (k : string) (v : A) :
  Dict.get (Dict.set d k v) k = Some v.
Proof.
  induction d as [|[k' v'] d IH]; cbn.
  - now rewrite String.eqb_refl.
  - destruct (String.eqb k' k) eqn:E; cbn; now rewrite E.
Qed.

Lemma dict_get_set_other {A} (d : Dict.t A) (k k' : string) (v : A) :
  k <> k' -> Dict.get (Dict.set d k v) k' = Dict.get d k'.
Proof.
  intros Hne. induction d as [|[k0 v0] d IH]; cbn.
  - destruct (String.eqb_spec k k'); [contradiction | reflexivity].
  - destruct (String.eqb_spec k0 k) as [-> | Hk]; cbn.
    + destruct (String.eqb_spec k k'); [contradiction | reflexivity].
    + now rewrite IH.
Qed.

(** C7. [collect_summary] reads every line up to the end-of-input
    signal, blank lines included, and stores under [summary] the lines
    joined by one space; the two lines of the scenario give
    ["Engineer. Loves systems."]. *)
Theorem collect_summary_until_eof (lines : list string) tail w :
  stdin w = (map Some lines ++ tail)%list ->
  tail = [] \/ (exists rest, tail = None :: rest) ->
  collect_summary w
  = (Ret tt,
     set_resume_data
       (Dict.set (resume_data w) "summary" (VStr (String.concat " " lines)))
       (moved (tl tail) (summary_header ++ repeat "" (S (length lines))) w))
  /\ Dict.get (resume_data (snd (collect_summary w))) "summary"
     = Some (VStr (String.concat " " lines))
  /\ stdin (snd (collect_summary w)) = tl tail
  /\ (lines = ["Engineer."; "Loves systems."] ->
      Dict.get (resume_data (snd (collect_summary w))) "summary"
      = Some (VStr "Engineer. Loves systems.")).
Proof.
  intros Hin Ht.
  assert (collect_summary w
          = (Ret tt,
             set_resume_data
               (Dict.set (resume_data w) "summary"
                  (VStr (String.concat " " lines)))
               (moved (tl tail)
                  (summary_header ++ repeat "" (S (length lines))) w))) as E.
  { unfold collect_summary.
    rewrite (bind_ret _ _ _ _ _ (print_run _ w)).
    rewrite (bind_ret _ _ _ _ _ (print_run _ _)).
    rewrite moved_moved.
    unfold bind at 1. unfold locals_after, while_true.
    rewrite (summary_loop lines [] tail); [| exact Hin | exact Ht | cbn; lia].
    cbn [except_EOFError app]. rewrite moved_moved. reflexivity. }
  rewrite E. cbn [snd].
  split; [reflexivity|].
  split; [apply dict_get_set|].
  split; [reflexivity|].
  intros ->. apply dict_get_set.
Qed.

Lemma collect_summary_until_eof_witness :
  stdin (terminal [Some "Engineer."; Some "Loves systems."; None; Some "Python"])
  = (map Some ["Engineer."; "Loves systems."] ++ None :: [Some "Python"])%list /\
  (None :: [Some "Python"] = []
   \/ exists rest, None :: [Some "Python"] = None :: rest) /\
  Dict.get
    (resume_data
       (snd (collect_summary
               (terminal [Some "Engineer."; Some "Loves systems."; None;
                          Some "Python"]))))
    "summary"
  = Some (VStr "Engineer. Loves systems.").
Proof.
  split; [reflexivity|].
  split; [right; now exists [Some "Python"]|].
  apply (collect_summary_until_eof ["Engineer."; "Loves systems."]
           (None :: [Some "Python"])
           (terminal [Some "Engineer."; Some "Loves systems."; None;
                      Some "Python"])
           eq_refl (or_intror (ex_intro _ [Some "Python"] eq_refl))).
  reflexivity.
Defined.

(** A blank line is a line of the summary like any other. *)
Example collect_summary_blank_line :
  Dict.get
    (resume_data
       (snd (collect_summary (terminal [Some "One."; Some ""; Some "Two."]))))
    "summary"
  = Some (VStr "One.  Two.").
Proof. reflexivity. Qed.

(** *** Repeated-entry sections *)

Lemma get_user_input_line (prompt line : string) rest w :
  stdin w = Some line :: rest ->
  get_user_input prompt w
  = (Ret line, moved rest ["Enter your " ++ prompt ++ ": "] w).
Proof. apply input_line. Qed.

Lemma typed_lines_strings (l : list value) :
  forallb (fun x => match x with VStr s => truthy s | _ => false end) l = true ->
  exists lines, l = map VStr lines /\ forallb truthy lines = true
                /\ typed_lines l = map Some lines.
Proof.
  induction l as [|x l IH]; cbn; intros H.
  - now exists [].
  - apply andb_true_iff in H as [Hx Hl].
    destruct x as [s | | | | |]; try discriminate.
    destruct (IH Hl) as (lines & -> & Hlines & E).
    exists (s :: lines). cbn. rewrite Hx, Hlines.
    unfold typed_lines in E. now rewrite E.
Qed.

Lemma read_field_run (f : field) (a : value) rest w :
  answer_fits (kind f) a = true ->
  stdin w = (typed_answer a ++ rest)%list ->
  exists out, read_field f w = (Ret a, moved rest out w).
Proof.
  unfold read_field, answer_fits. intros Hfit Hin.
  destruct (kind f), a as [s | l | | | |]; try discriminate.
  - cbn in Hin.
    rewrite (bind_ret _ _ _ _ _ (get_user_input_line _ s rest w Hin)).
    cbn. eauto.
  - destruct (typed_lines_strings l Hfit) as (lines & -> & Hlines & E).
    cbn [typed_answer] in Hin. rewrite E, <- app_assoc in Hin. cbn in Hin.
    rewrite (bind_ret _ _ _ _ _
               (get_list_input_run (field_prompt f) lines rest w Hlines Hin)).
    cbn. eauto.
Qed.

(** The dict the display builds from the answers. *)
Lemma read_fields_run (fs : list field) :
  forall (l : list value) (entry : Dict.t value) rest w,
    answers_fit fs l = true ->
    stdin w = (flat_map typed_answer l ++ rest)%list ->
    exists out,
      read_fields fs entry w
      = (Ret (fold_left (fun d na => Dict.set d (fst na) (snd na))
                        (combine (map field_name fs) l) entry),
         moved rest out w).
Proof.
  induction fs as [|f fs IH]; intros [|a l] entry rest w Hfit Hin;
    try discriminate.
  - cbn in *. exists []. unfold moved. destruct w; cbn in *.
    now rewrite app_nil_r, Hin.
  - cbn in Hfit. apply andb_true_iff in Hfit as [Ha Hl].
    cbn [flat_map] in Hin. rewrite <- app_assoc in Hin.
    destruct (read_field_run f a _ w Ha Hin) as [out1 E1].
    cbn [read_fields]. rewrite (bind_ret _ _ _ _ _ E1).
    destruct (IH l (Dict.set entry (field_name f) a) rest
                 (moved (flat_map typed_answer l ++ rest)%list out1 w)
                 Hl eq_refl) as [out2 E2].
    rewrite E2, moved_moved. cbn. eauto.
Qed.

Lemma distinct_app_cons (l1 : list string) (n : string) (l2 : list string) :
  distinct (l1 ++ n :: l2) = true ->
  existsb (String.eqb n) l1 = false /\ distinct ((l1 ++ [n]) ++ l2) = true.
Proof.
  intros H. split; [|now rewrite <- app_assoc].
  induction l1 as [|x l1 IH]; [reflexivity|].
  cbn in H. apply andb_true_iff in H as [Hx Hd].
  apply negb_true_iff in Hx. apply existsb_app_false in Hx as [_ Hx].
  cbn in Hx. apply orb_false_iff in Hx as [Hx _].
  cbn. rewrite String.eqb_sym, Hx. now apply IH.
Qed.

Lemma dict_display (names : list string) :
  forall (l : list value) (entry : Dict.t value),
    distinct (Dict.keys entry ++ names) = true ->
    fold_left (fun d na => Dict.set d (fst na) (snd na))
              (combine names l) entry
    = (entry ++ combine names l)%list.
Proof.
  induction names as [|n names IH]; intros l entry Hd.
  - cbn. now rewrite app_nil_r.
  - destruct l as [|a l]; [cbn; now rewrite app_nil_r|].
    apply distinct_app_cons in Hd as [Hn Hd].
    cbn [combine fold_left fst snd].
    rewrite dict_set_fresh by exact Hn.
    rewrite IH; [now rewrite <- app_assoc|].
    now rewrite dict_keys_app.
Qed.

Lemma typed_length (e : entry_input) : 0 < length (typed e).
Proof. cbn. lia. Qed.

Lemma entry_loop_run (sec : repeated_section) (es : list entry_input) :
  distinct (key_field sec :: map field_name (fields sec)) = true ->
  forall (acc : list value) rest fuel w,
    forallb (entry_fits sec) es = true ->
    stdin w = (flat_map typed es ++ Some "" :: rest)%list ->
    length (stdin w) < fuel ->
    exists out,
      loop_fuel fuel
        (fun entries : list value =>
           print (newline ++ announce sec) ;;
           key <- get_user_input (key_prompt sec) ;;
           if negb (truthy key) then ret (Break entries)
           else
             entry <- read_fields (fields sec) [(key_field sec, VStr key)] ;;
             ret (Continue (entries ++ [VDict entry])%list))
        acc w
      = (Ret tt, (acc ++ map (entry_value sec) es)%list, moved rest out w).
Proof.
  intros Hsec.
  induction es as [|e es IH]; intros acc rest fuel w Hfit Hin Hfuel;
    (destruct fuel as [|fuel]; [lia|]); cbn [loop_fuel].
  - cbn in Hin.
    erewrite bind_ret by apply print_run.
    erewrite bind_ret by (apply get_user_input_line; exact Hin).
    cbn [truthy negb ret map]. rewrite moved_moved, app_nil_r. eauto.
  - cbn [forallb] in Hfit. apply andb_true_iff in Hfit as [He Hes].
    unfold entry_fits in He. apply andb_true_iff in He as [Hkey Hans].
    cbn [flat_map] in Hin. rewrite <- app_assoc in Hin.
    unfold typed at 1 in Hin. rewrite <- app_comm_cons in Hin.
    erewrite bind_ret by apply print_run.
    erewrite bind_ret by (apply get_user_input_line; exact Hin).
    rewrite Hkey. cbn [negb]. rewrite moved_moved.
    match goal with
    | |- context [bind (read_fields _ ?entry) _ ?W] =>
        destruct (read_fields_run (fields sec) (answers e) entry
                    (flat_map typed es ++ Some "" :: rest)%list W
                    Hans eq_refl) as [out1 E1]
    end.
    rewrite (bind_ret _ _ _ _ _ E1). cbn [ret].
    rewrite dict_display by exact Hsec. rewrite moved_moved.
    match goal with
    | |- context [loop_fuel fuel _ ?acc' ?W] =>
        destruct (IH acc' rest fuel W Hes eq_refl) as [out2 E2]
    end.
    + rewrite stdin_moved. rewrite Hin in Hfuel. cbn [length] in Hfuel.
      rewrite length_app in Hfuel. lia.
    + rewrite E2, moved_moved, <- app_assoc. cbn [map app]. eauto.
Qed.

Lemma collect_repeated_run (sec : repeated_section) (es : list entry_input)
      rest w :
  distinct (key_field sec :: map field_name (fields sec)) = true ->
  forallb (entry_fits sec) es = true ->
  stdin w = (flat_map typed es ++ Some "" :: rest)%list ->
  exists out,
    collect_repeated sec w
    = (Ret tt,
       set_resume_data
         (Dict.set (resume_data w) (target sec)
            (VList (map (entry_value sec) es)))
         (moved rest out w)).
Proof.
  intros Hsec Hfit Hin. unfold collect_repeated, entry_loop.
  erewrite bind_ret by apply print_run.
  unfold bind at 1. unfold locals_after, while_true.
  match goal with
  | |- context [loop_fuel ?fuel _ _ ?W] =>
      destruct (entry_loop_run sec es Hsec [] rest fuel W Hfit Hin)
        as [out E]; [lia|]
  end.
  rewrite E, moved_moved. cbn. eauto.
Qed.

Lemma collect_section_repeated (n : section_name) :
  collect_section n = collect_repeated (section_of n).
Proof. now destruct n. Qed.

Lemma section_fields_distinct (n : section_name) :
  distinct (key_field (section_of n)
              :: map field_name (fields (section_of n))) = true.
Proof. now destruct n. Qed.

(** C5. A repeated-entry section asks for the key field of an entry
    first; a blank answer ends the loop and stores the section, nothing
    more being read; the entries typed before it are stored in the order
    they were typed, each with its key field first; when the first
    answer is blank the section is the empty sequence. *)
Theorem collect_section_in_order
        (n : section_name) (es : list entry_input) rest w :
  forallb (entry_fits (section_of n)) es = true ->
  stdin w = (flat_map typed es ++ Some "" :: rest)%list ->
  fst (collect_section n w) = Ret tt /\
  Dict.get (resume_data (snd (collect_section n w))) (target (section_of n))
  = Some (VList (map (entry_value (section_of n)) es)) /\
  stdin (snd (collect_section n w)) = rest /\
  In (key_field (section_of n)) ["role"; "university"; "title"] /\
  (es = [] ->
   Dict.get (resume_data (snd (collect_section n w))) (target (section_of n))
   = Some (VList [])).
Proof.
  intros Hfit Hin. rewrite collect_section_repeated.
  destruct (collect_repeated_run (section_of n) es rest w
              (section_fields_distinct n) Hfit Hin) as [out E].
  rewrite E. cbn [fst snd].
  split; [reflexivity|].
  split; [apply dict_get_set|].
  split; [reflexivity|].
  split; [destruct n; cbn; tauto|].
  intros ->. apply dict_get_set.
Qed.

Lemma collect_section_in_order_witness :
  forallb (entry_fits (section_of Experience)) [scenario_entry] = true /\
  stdin scenario_terminal
  = (flat_map typed [scenario_entry] ++ Some "" :: [Some "B.E."])%list /\
  Dict.get (resume_data (snd (collect_section Experience scenario_terminal)))
           "experience"
  = Some (VList [VDict [ ("role", VStr "Software Engineer");
                         ("company", VStr "Acme & Co");
                         ("start_date", VStr "May 2025");
                         ("end_date", VStr "Present");
                         ("description",
                           VList [VStr "Built 50% faster pipeline"]) ]]).
Proof.
  split; [reflexivity|]. split; [reflexivity|].
  exact (proj1 (proj2 (collect_section_in_order Experience [scenario_entry]
                         [Some "B.E."] scenario_terminal eq_refl eq_refl))).
Defined.

(** The scenario end to end: collected, then sanitized. *)
Example scenario_sanitized :
  option_map sanitize_data
    (Dict.get (resume_data (snd (collect_experience scenario_terminal)))
              "experience")
  = Some (VList [VDict [ ("role", VStr "Software Engineer");
                         ("company", VStr "Acme \& Co");
                         ("start_date", VStr "May 2025");
                         ("end_date", VStr "Present");
                         ("description",
                           VList [VStr "Built 50\% faster pipeline"]) ]]).
Proof. reflexivity. Qed.

(** When the stream ends at a key-field prompt, [EOFError] leaves the
    collector and the section is not stored. *)
Example collect_experience_eof :
  fst (collect_experience (terminal [])) = Raise EOFError /\
  resume_data (snd (collect_experience (terminal []))) = [].
Proof. split; reflexivity. Qed.

(** *** The loops end

    The bound of [while_true] is never reached: every collector ends,
    with a value or with [EOFError], whatever is on the terminal. *)

Lemma steady_ret {A} (a : A) : steady (ret a).
Proof. intros w. cbn. split; [discriminate | lia]. Qed.

Lemma steady_bind {A B} (m : M A) (k : A -> M B) :
  steady m -> (forall a, steady (k a)) -> steady (bind m k).
Proof.
  intros Hm Hk w. unfold bind. specialize (Hm w).
  destruct (m w) as [[a | e |] w1]; cbn in *.
  - specialize (Hk a w1). split; [tauto | lia].
  - split; [discriminate | tauto].
  - tauto.
Qed.

Lemma steady_print (s : string) : steady (print s).
Proof. intros w. cbn. split; [discriminate | lia]. Qed.

Lemma steady_resume_data_set (k : string) (v : value) :
  steady (resume_data_set k v).
Proof. intros w. cbn. split; [discriminate | lia]. Qed.

Lemma input_consumes (prompt line : string) w w' :
  input prompt w = (Ret line, w') -> length (stdin w') < length (stdin w).
Proof.
  destruct w as [i o f s r]. unfold input. cbn.
  destruct i as [|[l|] rest]; intros [= <- <-] || intros [=]; cbn; lia.
Qed.

Lemma steady_input (prompt : string) : steady (input prompt).
Proof.
  intros [i o f s r]. unfold input. cbn.
  destruct i as [|[l|] rest]; cbn; split; try discriminate; lia.
Qed.

Lemma loop_fuel_steady {L} (body : L -> M (flow L)) :
  (forall s, steady (body s)) ->
  (forall s w s' w',
      body s w = (Ret (Continue s'), w') ->
      length (stdin w') < length (stdin w)) ->
  forall fuel s w,
    length (stdin w) < fuel ->
    fst (fst (loop_fuel fuel body s w)) <> Diverge /\
    length (stdin (snd (loop_fuel fuel body s w))) <= length (stdin w).
Proof.
  intros Hsteady Hstrict.
  induction fuel as [|fuel IH]; intros s w Hfuel; [lia|]. cbn [loop_fuel].
  pose proof (Hsteady s w) as [Hnd Hle].
  destruct (body s w) as [[[s' | s'] | e |] w'] eqn:E; cbn in *.
  - pose proof (Hstrict _ _ _ _ E) as Hlt.
    destruct (IH s' w') as [H1 H2]; [lia|]. split; [exact H1 | lia].
  - split; [discriminate | lia].
  - split; [discriminate | lia].
  - tauto.
Qed.

Lemma steady_while_true {L} (caught : exn -> bool)
      (body : L -> M (flow L)) (s : L) :
  (forall s, steady (body s)) ->
  (forall s w s' w',
      body s w = (Ret (Continue s'), w') ->
      length (stdin w') < length (stdin w)) ->
  steady (locals_after caught (while_true body s)).
Proof.
  intros Hsteady Hstrict w. unfold locals_after, while_true.
  destruct (loop_fuel_steady body Hsteady Hstrict
              (S (length (stdin w))) s w) as [Hnd Hle]; [lia|].
  destruct (loop_fuel (S (length (stdin w))) body s w) as [[[[] | e |] s'] w'];
    cbn in *; [| destruct (caught e) |]; cbn; split;
    try discriminate; try lia; tauto.
Qed.

Lemma steady_get_list_input (prompt : string) : steady (get_list_input prompt).
Proof.
  unfold get_list_input. apply steady_bind; [apply steady_print|]. intros _.
  apply steady_while_true.
  - intros items. apply steady_bind; [apply steady_input|].
    intros item. destruct (negb (truthy item)); apply steady_ret.
  - intros items w s' w'. unfold bind.
    destruct (input "> " w) as [[item | e |] w1] eqn:E; try discriminate.
    apply input_consumes in E.
    destruct (negb (truthy item)); cbn; intros [= <- <-] || intros [=].
    exact E.
Qed.

Lemma steady_collect_summary : steady collect_summary.
Proof.
  unfold collect_summary.
  apply steady_bind; [apply steady_print|]. intros _.
  apply steady_bind; [apply steady_print|]. intros _.
  apply steady_bind; [|intros lines; apply steady_resume_data_set].
  apply steady_while_true.
  - intros lines. apply steady_bind; [apply steady_input|].
    intros line. apply steady_ret.
  - intros lines w s' w'. unfold bind.
    destruct (input "" w) as [[line | e |] w1] eqn:E; try discriminate.
    apply input_consumes in E. cbn. intros [= <- <-]. exact E.
Qed.

Lemma steady_read_field (f : field) : steady (read_field f).
Proof.
  unfold read_field. destruct (kind f).
  - apply steady_bind; [apply steady_input | intros s; apply steady_ret].
  - apply steady_bind; [apply steady_get_list_input |
                        intros l; apply steady_ret].
Qed.

Lemma steady_read_fields (fs : list field) :
  forall entry, steady (read_fields fs entry).
Proof.
  induction fs as [|f fs IH]; intros entry; cbn [read_fields].
  - apply steady_ret.
  - apply steady_bind; [apply steady_read_field | intros v; apply IH].
Qed.

Lemma steady_collect_repeated (sec : repeated_section) :
  steady (collect_repeated sec).
Proof.
  unfold collect_repeated, entry_loop.
  apply steady_bind; [apply steady_print|]. intros _.
  apply steady_bind; [|intros entries; apply steady_resume_data_set].
  apply steady_while_true.
  - intros entries. apply steady_bind; [apply steady_print|]. intros _.
    apply steady_bind; [apply steady_input|]. intros key.
    destruct (negb (truthy key)); [apply steady_ret|].
    apply steady_bind; [apply steady_read_fields | intros e; apply steady_ret].
  - intros entries w s' w'. unfold bind at 1.
    rewrite print_run. unfold bind at 1. unfold get_user_input.
    match goal with
    | |- context [input ?p ?W] =>
        destruct (input p W) as [[key | e |] w1] eqn:E; try discriminate
    end.
    apply input_consumes in E. rewrite stdin_moved in E.
    destruct (negb (truthy key)); [discriminate|].
    pose proof (steady_read_fields (fields sec)
                  [(key_field sec, VStr key)] w1) as [_ Hle].
    unfold bind.
    destruct (read_fields (fields sec) [(key_field sec, VStr key)] w1)
      as [[entry | e |] w2]; try discriminate.
    cbn in *. intros [= <- <-]. lia.
Qed.

(** Every collector of the program ends on every terminal. *)
Lemma collectors_end (n : section_name) (prompt : string) (w : world) :
  fst (get_list_input prompt w) <> Diverge /\
  fst (collect_summary w) <> Diverge /\
  fst (collect_section n w) <> Diverge.
Proof.
  rewrite collect_section_repeated.
  split; [apply steady_get_list_input|].
  split; [apply steady_collect_summary | apply steady_collect_repeated].
Qed.

(** * Properties of the compilation stage *)

Lemma set_files_same w : set_files (files w) w = w.
Proof. now destruct w. Qed.

Lemma remove_if_present (path : string) w :
  (present <- path_exists path ;;
   if present then os_remove path else ret tt) w
  = (Ret tt, set_files (delete path (files w)) w).
Proof.
  unfold bind, path_exists, os_remove.
  destruct (files w !! path) as [text|] eqn:E.
  - rewrite bool_decide_eq_true_2 by (now exists text). now rewrite E.
  - rewrite bool_decide_eq_false_2 by (intros [x Hx]; discriminate).
    cbn. now rewrite delete_id, set_files_same.
Qed.

Lemma cleanup_run w : cleanup w = (Ret tt, set_files (cleaned (files w)) w).
Proof.
  unfold cleanup, extensions_to_clean. cbn [for_each].
  erewrite bind_ret by apply remove_if_present.
  erewrite bind_ret by apply remove_if_present.
  erewrite bind_ret by apply remove_if_present.
  reflexivity.
Qed.

Lemma cleaned_lookup (fs : gmap string string) :
  cleaned fs !! "resume.aux" = None /\
  cleaned fs !! "resume.log" = None /\
  cleaned fs !! "resume.out" = None.
Proof.
  unfold cleaned. repeat split.
  - rewrite !lookup_delete_ne by discriminate. apply lookup_delete_eq.
  - rewrite lookup_delete_ne by discriminate. apply lookup_delete_eq.
  - apply lookup_delete_eq.
Qed.

Lemma cleaned_other (fs : gmap string string) (path : string) :
  ~ In path ["resume.aux"; "resume.log"; "resume.out"] ->
  cleaned fs !! path = fs !! path.
Proof.
  intros H. unfold cleaned.
  rewrite !lookup_delete_ne; [reflexivity | | |]; intros <-; apply H; cbn; tauto.
Qed.

Lemma for_each_print (messages : list string) w :
  for_each messages print w
  = (Ret tt, set_stdout (stdout w ++ printed messages)%list w).
Proof.
  revert w. induction messages as [|m ms IH]; intros w; cbn [for_each].
  - cbn. destruct w; cbn. now rewrite app_nil_r.
  - unfold bind at 1. unfold print at 1. rewrite IH.
    destruct w; cbn. now rewrite <- app_assoc.
Qed.

Section CompileStage.
Variable exec : list string -> gmap string string -> spawn_result.
Variable decode_ignore : string -> string.

(** One turn of the [for] loop. *)
Lemma launch_run w :
  (process <- subprocess_run_check exec pdflatex_argv ;; ret tt) w
  = let w1 := set_spawned (spawned w ++ [pdflatex_argv])%list w in
    match exec pdflatex_argv (files w) with
    | NotFound => (Raise FileNotFoundError, w1)
    | LaunchError name => (Raise (OtherOSError name), w1)
    | Exited rc out err fs =>
        if (rc =? 0)%Z then (Ret tt, set_files fs w1)
        else (Raise (CalledProcessError rc out err), set_files fs w1)
    end.
Proof.
  unfold bind, subprocess_run_check. cbn [files set_spawned].
  destruct (exec pdflatex_argv (files w)) as [|name|rc out err fs];
    [reflexivity | reflexivity |].
  now destruct (rc =? 0)%Z.
Qed.

(** The stage, computed: the compiler is launched as [compile_path]
    says, the report of the path is printed, the files the compiler
    left are cleaned, and the stage ends as the path does. *)
Lemma compile_pdf_run w :
  compile_pdf exec decode_ignore w
  = (ending (fst (fst (compile_path exec (files w)))),
     let '(p, launches, fs) := compile_path exec (files w) in
     World (stdin w)
           (stdout w ++ printed (report decode_ignore p))%list
           (cleaned fs)
           (spawned w ++ repeat pdflatex_argv launches)%list
           (resume_data w)).
Proof.
  destruct w as [i o f s r].
  unfold compile_pdf, try_finally, try_except, compile_path.
  cbn [seq for_each]. unfold bind at 1 2. rewrite launch_run.
  cbn [files set_spawned spawned stdin stdout resume_data].
  destruct (exec pdflatex_argv f) as [|name1|rc1 out1 err1 fs1].
  - rewrite for_each_print, cleanup_run. reflexivity.
  - rewrite cleanup_run. cbn. now rewrite app_nil_r.
  - destruct (rc1 =? 0)%Z.
    + cbn [set_files files spawned stdin stdout resume_data].
      unfold bind at 1. rewrite launch_run.
      cbv [set_files set_spawned files spawned stdin stdout resume_data].
      destruct (exec pdflatex_argv fs1) as [|name2|rc2 out2 err2 fs2].
      * rewrite for_each_print, cleanup_run. cbn.
        now rewrite <- app_assoc.
      * rewrite cleanup_run. cbn. now rewrite app_nil_r, <- app_assoc.
      * destruct (rc2 =? 0)%Z.
        -- cbn [set_files files spawned stdin stdout resume_data ret].
           rewrite print_run, cleanup_run. cbn. now rewrite <- app_assoc.
        -- rewrite for_each_print, cleanup_run. cbn.
           now rewrite <- app_assoc.
    + rewrite for_each_print, cleanup_run. reflexivity.
Qed.

End CompileStage.

Lemma compile_path_launches exec (fs : gmap string string) :
  1 <= snd (fst (compile_path exec fs)) <= 2.
Proof.
  unfold compile_path.
  destruct (exec pdflatex_argv fs) as [|name1|rc1 out1 err1 fs1];
    [cbn; lia | cbn; lia |].
  destruct (rc1 =? 0)%Z; [|cbn; lia].
  destruct (exec pdflatex_argv fs1) as [|name2|rc2 out2 err2 fs2];
    [cbn; lia | cbn; lia |].
  destruct (rc2 =? 0)%Z; cbn; lia.
Qed.

(** C8. The stage launches the compiler once or twice.  When the first
    run exits with a non-zero code there is no second run: the exit code
    and the captured output of that run are printed, the run ends.  (A
    second run that fails is reported the same way.) *)
Theorem compile_pdf_stops_at_failure
        (exec : list string -> gmap string string -> spawn_result)
        (decode_ignore : string -> string) (w : world) :
  (exists launches,
      1 <= launches <= 2 /\
      spawned (snd (compile_pdf exec decode_ignore w))
      = (spawned w ++ repeat pdflatex_argv launches)%list) /\
  (forall rc out err fs1,
      exec pdflatex_argv (files w) = Exited rc out err fs1 ->
      rc <> 0%Z ->
      compile_pdf exec decode_ignore w
      = (Ret tt,
         World (stdin w)
               (stdout w ++ printed (failure_messages decode_ignore rc out))%list
               (cleaned fs1)
               (spawned w ++ [pdflatex_argv])%list
               (resume_data w)) /\
      failure_messages decode_ignore rc out
      = [ newline ++ "❌ Error during PDF compilation. LaTeX returned a non-zero exit code: "
            ++ str_of_int rc;
          "Please check the 'resume.log' file for detailed LaTeX errors.";
          newline ++ "--- LaTeX Output ---";
          decode_ignore out ]) /\
  (forall out1 err1 fs1 rc out err fs2,
      exec pdflatex_argv (files w) = Exited 0 out1 err1 fs1 ->
      exec pdflatex_argv fs1 = Exited rc out err fs2 ->
      rc <> 0%Z ->
      compile_pdf exec decode_ignore w
      = (Ret tt,
         World (stdin w)
               (stdout w ++ printed (failure_messages decode_ignore rc out))%list
               (cleaned fs2)
               (spawned w ++ [pdflatex_argv; pdflatex_argv])%list
               (resume_data w))).
Proof.
  rewrite compile_pdf_run. split; [|split].
  - pose proof (compile_path_launches exec (files w)) as H.
    destruct (compile_path exec (files w)) as [[p launches] fs].
    exists launches. split; [exact H | reflexivity].
  - intros rc out err fs1 E Hrc. split; [|reflexivity].
    unfold compile_path. rewrite E.
    destruct (Z.eqb_spec rc 0); [contradiction | reflexivity].
  - intros out1 err1 fs1 rc out err fs2 E1 E2 Hrc.
    unfold compile_path. rewrite E1. cbn [Z.eqb]. rewrite E2.
    destruct (Z.eqb_spec rc 0); [contradiction | reflexivity].
Qed.

Lemma compile_pdf_stops_at_failure_witness :
  failing_pdflatex pdflatex_argv (files stale_directory)
  = Exited 1 "! Undefined control sequence." ""
           (<["resume.log" := "This is pdfTeX"]> (files stale_directory)) /\
  1%Z <> 0%Z /\
  spawned (snd (compile_pdf failing_pdflatex (fun b => b) stale_directory))
  = [pdflatex_argv] /\
  fst (compile_pdf failing_pdflatex (fun b => b) stale_directory) = Ret tt /\
  List.last
    (stdout (snd (compile_pdf failing_pdflatex (fun b => b) stale_directory)))
    ""
  = "! Undefined control sequence." ++ newline.
Proof.
  split; [reflexivity|]. split; [discriminate|].
  rewrite (proj1 (proj1 (proj2 (compile_pdf_stops_at_failure
                                  failing_pdflatex (fun b => b)
                                  stale_directory))
                    1%Z "! Undefined control sequence." ""
                    (<["resume.log" := "This is pdfTeX"]>
                       (files stale_directory))
                    eq_refl ltac:(discriminate))).
  repeat split.
Defined.

(** C9. On every way out of the stage the three auxiliary files
    [resume.aux], [resume.log] and [resume.out] are absent afterwards:
    after a successful compilation, after a non-zero exit of the first
    or of the second run, when the compiler is not found, and also when
    the launch fails with an exception the stage does not catch.  On
    the three paths the [try] statement provides for the stage returns
    normally.  When the compiler is not found, the two lines of the
    not-found message are printed, the compiler was looked for once, no
    file is created and the only files removed are the three auxiliary
    ones, so no PDF is produced. *)
Theorem compile_pdf_always_cleans
        (exec : list string -> gmap string string -> spawn_result)
        (decode_ignore : string -> string) (w : world) :
  (forall ext, In ext extensions_to_clean ->
     files (snd (compile_pdf exec decode_ignore w))
       !! (output_filename_base ++ ext) = None) /\
  (exists p fs,
      fst (compile_pdf exec decode_ignore w) = ending p /\
      files (snd (compile_pdf exec decode_ignore w)) = cleaned fs /\
      stdout (snd (compile_pdf exec decode_ignore w))
      = (stdout w ++ printed (report decode_ignore p))%list) /\
  (forall out1 err1 fs1 out2 err2 fs2,
      exec pdflatex_argv (files w) = Exited 0 out1 err1 fs1 ->
      exec pdflatex_argv fs1 = Exited 0 out2 err2 fs2 ->
      fst (compile_pdf exec decode_ignore w) = Ret tt /\
      files (snd (compile_pdf exec decode_ignore w)) = cleaned fs2) /\
  (forall rc out err fs1,
      exec pdflatex_argv (files w) = Exited rc out err fs1 ->
      rc <> 0%Z ->
      fst (compile_pdf exec decode_ignore w) = Ret tt /\
      files (snd (compile_pdf exec decode_ignore w)) = cleaned fs1) /\
  (forall out1 err1 fs1 rc out err fs2,
      exec pdflatex_argv (files w) = Exited 0 out1 err1 fs1 ->
      exec pdflatex_argv fs1 = Exited rc out err fs2 ->
      rc <> 0%Z ->
      fst (compile_pdf exec decode_ignore w) = Ret tt /\
      files (snd (compile_pdf exec decode_ignore w)) = cleaned fs2) /\
  (exec pdflatex_argv (files w) = NotFound ->
     compile_pdf exec decode_ignore w
     = (Ret tt,
        World (stdin w)
              (stdout w
               ++ [ ((newline ++ "❌ Error: 'pdflatex' command not found.")
                       ++ newline)%string;
                    ("Please ensure you have a LaTeX distribution (like MiKTeX, TeX Live, or MacTeX) installed and in your system's PATH."
                       ++ newline)%string ])%list
              (delete "resume.out"
                 (delete "resume.log" (delete "resume.aux" (files w))))
              (spawned w ++ [pdflatex_argv])%list
              (resume_data w)) /\
     (forall path,
        ~ In path ["resume.aux"; "resume.log"; "resume.out"] ->
        files (snd (compile_pdf exec decode_ignore w)) !! path
        = files w !! path) /\
     files (snd (compile_pdf exec decode_ignore w)) !! "resume.pdf"
     = files w !! "resume.pdf").
Proof.
  rewrite compile_pdf_run. cbn [fst snd].
  split; [|split; [|split; [|split; [|split]]]].
  - intros ext Hext.
    destruct (compile_path exec (files w)) as [[p launches] fs].
    cbn [files]. destruct (cleaned_lookup fs) as (Ha & Hl & Ho).
    destruct Hext as [<- | [<- | [<- | []]]]; assumption.
  - destruct (compile_path exec (files w)) as [[p launches] fs].
    now exists p, fs.
  - intros out1 err1 fs1 out2 err2 fs2 E1 E2.
    unfold compile_path. rewrite E1. cbn [Z.eqb]. rewrite E2. now split.
  - intros rc out err fs1 E Hrc. unfold compile_path. rewrite E.
    destruct (Z.eqb_spec rc 0); [contradiction | now split].
  - intros out1 err1 fs1 rc out err fs2 E1 E2 Hrc.
    unfold compile_path. rewrite E1. cbn [Z.eqb]. rewrite E2.
    destruct (Z.eqb_spec rc 0); [contradiction | now split].
  - intros E. unfold compile_path. rewrite E. split; [reflexivity|].
    cbn [files]. split.
    + intros path Hpath. now apply cleaned_other.
    + apply cleaned_other. cbn. intros [H | [H | [H | []]]]; discriminate.
Qed.

Lemma compile_pdf_always_cleans_witness :
  no_pdflatex pdflatex_argv (files stale_directory) = NotFound /\
  files stale_directory !! "resume.aux" = Some "old" /\
  files (snd (compile_pdf no_pdflatex (fun b => b) stale_directory))
    !! "resume.aux" = None /\
  files (snd (compile_pdf no_pdflatex (fun b => b) stale_directory))
    !! "resume.pdf" = None /\
  stdout (snd (compile_pdf no_pdflatex (fun b => b) stale_directory))
  = [ (newline ++ "❌ Error: 'pdflatex' command not found.") ++ newline;
      "Please ensure you have a LaTeX distribution (like MiKTeX, TeX Live, or MacTeX) installed and in your system's PATH."
        ++ newline ].
Proof.
  split; [reflexivity|]. split; [reflexivity|].
  rewrite (proj1 (proj2 (proj2 (proj2 (proj2 (proj2
             (compile_pdf_always_cleans no_pdflatex (fun b => b)
                stale_directory))))) eq_refl)).
  repeat split.
Defined.

(** The cleanup also runs when the exception is not one the stage
    catches: the exception leaves the stage, the leftovers are gone. *)
Example compile_pdf_uncaught :
  fst (compile_pdf forbidden_pdflatex (fun b => b) stale_directory)
  = Raise (OtherOSError "PermissionError") /\
  files (snd (compile_pdf forbidden_pdflatex (fun b => b) stale_directory))
    !! "resume.aux" = None /\
  files (snd (compile_pdf forbidden_pdflatex (fun b => b) stale_directory))
    !! "resume.tex" = Some "\documentclass{article}" /\
  stdout (snd (compile_pdf forbidden_pdflatex (fun b => b) stale_directory))
  = [].
Proof. repeat split. Qed.

(** * Further properties of the escaping *)

Lemma unescape_escape_char (c : ascii) (t : string) :
  unescape_from 0 (escape_char c ++ t) = String c (unescape_from 0 t).
Proof. each_char c; reflexivity. Qed.

Lemma unescape_simultaneous_subst (s : string) :
  unescape (simultaneous_subst s) = s.
Proof.
  unfold unescape.
  induction s as [|c s IH]; cbn [simultaneous_subst]; [reflexivity|].
  now rewrite unescape_escape_char, IH.
Qed.

(** X1. The escaping loses nothing: reading the escaped text back with
    the table gives the original string, so two different strings never
    have the same escaped form. *)
Theorem escape_latex_round_trip (s t : string) :
  unescape (escape_latex_str s) = s /\
  (escape_latex_str s = escape_latex_str t -> s = t).
Proof.
  split.
  - rewrite escape_latex_str_simultaneous. apply unescape_simultaneous_subst.
  - intros E. apply (f_equal unescape) in E.
    now rewrite !escape_latex_str_simultaneous,
      !unescape_simultaneous_subst in E.
Qed.

Lemma escape_latex_round_trip_witness :
  escape_latex_str "R&D_{x}~" = escape_latex_str "R&D_{x}~" /\
  unescape (escape_latex_str "R&D_{x}~") = "R&D_{x}~".
Proof.
  split; [reflexivity|].
  exact (proj1 (escape_latex_round_trip "R&D_{x}~" "R&D_{x}~")).
Defined.

Lemma escape_char_bounds (c : ascii) :
  (String.length (escape_char c)
   <= 1 + 17 * (if is_special c then 1 else 0))%nat /\
  (1 + (if is_special c then 1 else 0) <= String.length (escape_char c))%nat.
Proof. each_char c; cbv; split; lia. Qed.

Lemma simultaneous_subst_bounds (s : string) :
  (String.length s + count_special s
   <= String.length (simultaneous_subst s))%nat /\
  (String.length (simultaneous_subst s)
   <= String.length s + 17 * count_special s)%nat.
Proof.
  induction s as [|c s [IH1 IH2]];
    cbn [simultaneous_subst String.length count_special]; [split; lia|].
  rewrite string_app_length.
  destruct (escape_char_bounds c) as [Hu Hl].
  destruct (is_special c); split; lia.
Qed.

Lemma count_special_zero (s : string) :
  count_special s = 0%nat <-> has_special s = false.
Proof.
  induction s as [|c s IH]; cbn [count_special has_special]; [tauto|].
  destruct (is_special c); cbn [orb]; [split; [lia | discriminate]|].
  cbn. exact IH.
Qed.

(** X2. The escaped text is at least one character longer per special
    character and at most seventeen; it is the input itself exactly when
    the input holds no special character. *)
Theorem escape_latex_length (s : string) :
  (String.length s + count_special s
   <= String.length (escape_latex_str s))%nat /\
  (String.length (escape_latex_str s)
   <= String.length s + 17 * count_special s)%nat /\
  (escape_latex_str s = s <-> has_special s = false).
Proof.
  rewrite escape_latex_str_simultaneous.
  destruct (simultaneous_subst_bounds s) as [Hl Hu].
  split; [exact Hl|]. split; [exact Hu|].
  split; [|apply simultaneous_subst_plain].
  intros E. apply count_special_zero. rewrite E in Hl. lia.
Qed.

(** *** The order of the alternatives *)

Lemma insert_longest_first_in (k x : string) (l : list string) :
  In x (insert_longest_first k l) <-> x = k \/ In x l.
Proof.
  induction l as [|y l IH]; cbn; [intuition congruence|].
  destruct (str_len k <=? str_len y)%nat; cbn;
    [rewrite IH|]; intuition congruence.
Qed.

Lemma sorted_from_in (x : string) (l : list string) :
  forall acc,
    In x (fold_left (fun acc k => insert_longest_first k acc) l acc)
    <-> In x l \/ In x acc.
Proof.
  induction l as [|k l IH]; intros acc; cbn [fold_left]; [cbn; tauto|].
  rewrite IH, insert_longest_first_in. cbn. intuition congruence.
Qed.

Lemma insert_longest_first_sorted (k : string) (l : list string) :
  longest_first l -> longest_first (insert_longest_first k l).
Proof.
  induction l as [|y l IH]; cbn [insert_longest_first longest_first].
  - intros _. split; [intros z []| exact I].
  - intros [Hy Hl].
    destruct (Nat.leb_spec (str_len k) (str_len y)) as [Hle | Hlt];
      cbn [longest_first].
    + split; [|now apply IH].
      intros z Hz. apply insert_longest_first_in in Hz as [-> | Hz];
        [exact Hle | now apply Hy].
    + split; [|split; assumption].
      intros z [<- | Hz]; [lia|]. specialize (Hy z Hz). lia.
Qed.

Lemma sorted_from_sorted (l : list string) :
  forall acc,
    longest_first acc ->
    longest_first (fold_left (fun acc k => insert_longest_first k acc) l acc).
Proof.
  induction l as [|k l IH]; intros acc Hacc; cbn [fold_left]; [exact Hacc|].
  apply IH. now apply insert_longest_first_sorted.
Qed.

Lemma match_at_longest (l : list string) (s m : string) :
  longest_first l ->
  Re.match_at l s = Some m ->
  In m l /\ Re.starts_with m s = true /\
  forall k, In k l -> Re.starts_with k s = true ->
            (str_len k <= str_len m)%nat.
Proof.
  induction l as [|x l IH]; cbn [Re.match_at longest_first]; [discriminate|].
  intros [Hx Hl]. destruct (Re.starts_with x s) eqn:E.
  - intros [= <-]. split; [now left|]. split; [exact E|].
    intros k [<- | Hk] _; [lia | now apply Hx].
  - intros Hm. destruct (IH Hl Hm) as (Hin & Hpre & Hmax).
    split; [now right|]. split; [exact Hpre|].
    intros k [<- | Hk] Hks; [congruence | now apply Hmax].
Qed.

Lemma match_at_none (l : list string) (s : string) :
  Re.match_at l s = None ->
  forall k, In k l -> Re.starts_with k s = false.
Proof.
  induction l as [|x l IH]; cbn [Re.match_at]; [intros _ k []|].
  destruct (Re.starts_with x s) eqn:E; [discriminate|].
  intros Hm k [<- | Hk]; [exact E | now apply IH].
Qed.

Lemma insert_longest_first_last (k : string) (l : list string) :
  (forall y, In y l -> (str_len k <= str_len y)%nat) ->
  insert_longest_first k l = (l ++ [k])%list.
Proof.
  induction l as [|y l IH]; intros H; cbn [insert_longest_first app];
    [reflexivity|].
  destruct (Nat.leb_spec (str_len k) (str_len y)) as [Hle | Hlt].
  - rewrite IH; [reflexivity|]. intros z Hz. apply H. now right.
  - specialize (H y (or_introl eq_refl)). lia.
Qed.

Lemma sorted_from_same_length (n : nat) (l : list string) :
  forall acc,
    (forall k, In k l -> str_len k = n) ->
    (forall k, In k acc -> str_len k = n) ->
    fold_left (fun acc k => insert_longest_first k acc) l acc
    = (acc ++ l)%list.
Proof.
  induction l as [|k l IH]; intros acc Hl Hacc; cbn [fold_left].
  - now rewrite app_nil_r.
  - rewrite insert_longest_first_last.
    + rewrite IH; [now rewrite <- app_assoc | |].
      * intros z Hz. apply Hl. now right.
      * intros z Hz. apply in_app_or in Hz as [Hz | [<- | []]];
          [now apply Hacc | apply Hl; now left].
    + intros y Hy. rewrite (Hacc y Hy), (Hl k (or_introl eq_refl)). lia.
Qed.

(** X3. Whatever the keys of the table, the alternation built from them
    tries the longest key first, length being [len], the number of
    characters: the match found at a position is a key, it starts the
    text there, and no key that also starts the text has more
    characters; no match means no key starts the text.  Keys with the
    same number of characters keep the order of the table. *)
Theorem regex_longest_match (keys : list string) (s : string) :
  (forall m, Re.match_at (sorted_longest_first keys) s = Some m ->
     In m keys /\ Re.starts_with m s = true /\
     forall k, In k keys -> Re.starts_with k s = true ->
               (str_len k <= str_len m)%nat) /\
  (Re.match_at (sorted_longest_first keys) s = None ->
     forall k, In k keys -> Re.starts_with k s = false) /\
  (forall n, (forall k, In k keys -> str_len k = n) ->
     sorted_longest_first keys = keys).
Proof.
  unfold sorted_longest_first. split; [|split].
  - intros m Hm.
    destruct (match_at_longest _ s m (sorted_from_sorted keys [] I) Hm)
      as (Hin & Hpre & Hmax).
    split; [apply sorted_from_in in Hin as [Hin | []]; exact Hin|].
    split; [exact Hpre|].
    intros k Hk. apply Hmax. apply sorted_from_in. now left.
  - intros Hnone k Hk. apply (match_at_none _ s Hnone).
    apply sorted_from_in. now left.
  - intros n Hn. now rewrite (sorted_from_same_length n keys []).
Qed.

Lemma regex_longest_match_witness :
  Re.match_at (sorted_longest_first ["--"; "-"; "---"]) "---x" = Some "---" /\
  In "---" ["--"; "-"; "---"] /\
  Re.sub (sorted_longest_first ["--"; "-"; "---"])
         (fun m => "<" ++ m ++ ">") "a---b--c-" = "a<--->b<-->c<->".
Proof.
  split; [reflexivity|].
  split; [|reflexivity].
  exact (proj1 (proj1 (regex_longest_match ["--"; "-"; "---"] "---x")
                  "---" eq_refl)).
Defined.

(** The order is by characters, not by bytes of the encoding: [é] is
    one character in two bytes and comes after the two characters
    [ab], and keeps its place among keys of one character. *)
Example sorted_by_characters :
  sorted_longest_first ["é"; "ab"] = ["ab"; "é"] /\
  sorted_longest_first ["a"; "é"; "b"] = ["a"; "é"; "b"] /\
  str_len "é" = 1 /\ str_len "naïve €" = 7.
Proof. repeat split. Qed.

(** * Further properties of the traversal *)

Lemma map_strings_inverse (f g : string -> string) (v : value) :
  (forall s, g (f s) = s) ->
  map_strings g (map_strings f v) = v.
Proof.
  intros Hgf.
  induction v as [s | l IH | d IH | z | b |] using value_nested_ind;
    cbn [map_strings]; try reflexivity.
  - now rewrite Hgf.
  - f_equal. rewrite map_map.
    induction IH as [|x l Hx _ IHl]; cbn; [reflexivity|].
    now rewrite Hx, IHl.
  - f_equal. rewrite map_map.
    induction IH as [|[k x] d' Hkv _ IHd]; cbn in *; [reflexivity|].
    now rewrite Hkv, IHd.
Qed.

(** X4. Sanitizing a record loses nothing: reading every string leaf of
    the sanitized record back gives the record that was collected, so
    two different records never have the same sanitized form. *)
Theorem sanitize_data_round_trip (data data' : value) :
  is_record data = true ->
  unsanitize (sanitize_data data) = data /\
  (is_record data' = true ->
   sanitize_data data = sanitize_data data' -> data = data').
Proof.
  assert (forall v, is_record v = true -> unsanitize (sanitize_data v) = v)
    as Hback.
  { intros v Hv. unfold unsanitize. rewrite sanitize_data_map_strings by exact Hv.
    apply map_strings_inverse. intros s.
    rewrite escape_latex_str_simultaneous.
    apply unescape_simultaneous_subst. }
  intros Hd. split; [now apply Hback|].
  intros Hd' E. rewrite <- (Hback data Hd), <- (Hback data' Hd').
  now rewrite E.
Qed.

Lemma sanitize_data_round_trip_witness :
  is_record sample_record = true /\
  unsanitize (sanitize_data sample_record) = sample_record.
Proof.
  split; [reflexivity|].
  exact (proj1 (sanitize_data_round_trip sample_record sample_record
                  eq_refl)).
Defined.

(** * Further properties of the data collector *)

Lemma dict_get_absent {A} (d : Dict.t A) (k : string) :
  existsb (String.eqb k) (Dict.keys d) = false -> Dict.get d k = None.
Proof.
  induction d as [|[k' v] d IH]; cbn; [reflexivity|].
  rewrite String.eqb_sym. destruct (String.eqb k' k); cbn; [discriminate|].
  exact IH.
Qed.

(** After several assignments to distinct keys, each of them holds what
    was assigned and every other key what it held. *)
Lemma dict_update_get {A} (kvs : list (string * A)) :
  forall (d : Dict.t A) (k : string),
    distinct (Dict.keys kvs) = true ->
    Dict.get (dict_update d kvs) k
    = match Dict.get kvs k with
      | Some v => Some v
      | None => Dict.get d k
      end.
Proof.
  unfold dict_update.
  induction kvs as [|[k0 v0] kvs IH]; intros d k Hd; [reflexivity|].
  cbn in Hd. apply andb_true_iff in Hd as [Hk0 Hd].
  apply negb_true_iff in Hk0.
  cbn [fold_left fst snd Dict.get]. rewrite IH by exact Hd.
  destruct (String.eqb_spec k0 k) as [-> | Hne].
  - now rewrite (dict_get_absent kvs k Hk0), dict_get_set.
  - now rewrite dict_get_set_other by exact Hne.
Qed.

(** X5. [collect_personal_info] reads seven lines and stores each as it
    was typed, blank or not, under its key: afterwards the seven keys
    hold the seven answers and every other key of the record holds what
    it held; the terminal is left after the seventh line. *)
Theorem collect_personal_info_stores (answers : list string) rest w :
  length answers = 7 ->
  stdin w = (map Some answers ++ rest)%list ->
  fst (collect_personal_info w) = Ret tt /\
  stdin (snd (collect_personal_info w)) = rest /\
  resume_data (snd (collect_personal_info w))
  = dict_update (resume_data w) (combine personal_keys (map VStr answers)) /\
  (forall k,
     Dict.get (resume_data (snd (collect_personal_info w))) k
     = match Dict.get (combine personal_keys (map VStr answers)) k with
       | Some v => Some v
       | None => Dict.get (resume_data w) k
       end).
Proof.
  intros Hlen Hin.
  assert (fst (collect_personal_info w) = Ret tt /\
          stdin (snd (collect_personal_info w)) = rest /\
          resume_data (snd (collect_personal_info w))
          = dict_update (resume_data w)
              (combine personal_keys (map VStr answers))) as (H1 & H2 & H3).
  { destruct answers as [|a1 [|a2 [|a3 [|a4 [|a5 [|a6 [|a7 [|a8 l]]]]]]]];
      try discriminate.
    destruct w as [i o f s r]. cbn in Hin. subst i. repeat split. }
  repeat split; try assumption.
  intros k. rewrite H3. apply dict_update_get.
  destruct answers as [|a1 [|a2 [|a3 [|a4 [|a5 [|a6 [|a7 [|a8 l]]]]]]]];
    try discriminate.
  reflexivity.
Qed.

Lemma collect_personal_info_stores_witness :
  length ["Ada"; "London"; ""; "ada@x.org"; ""; "in/ada"; "gh/ada"] = 7 /\
  Dict.get
    (resume_data
       (snd (collect_personal_info
               (terminal (map Some ["Ada"; "London"; ""; "ada@x.org"; "";
                                    "in/ada"; "gh/ada"] ++ [Some "next"])))))
    "phone"
  = Some (VStr "").
Proof.
  split; [reflexivity|].
  rewrite (proj2 (proj2 (proj2
             (collect_personal_info_stores
                ["Ada"; "London"; ""; "ada@x.org"; ""; "in/ada"; "gh/ada"]
                [Some "next"]
                (terminal (map Some ["Ada"; "London"; ""; "ada@x.org"; "";
                                     "in/ada"; "gh/ada"] ++ [Some "next"]))
                eq_refl eq_refl)))).
  reflexivity.
Defined.

(** X6. When the input ends before the seventh answer,
    [collect_personal_info] raises [EOFError]; the answers given before
    have already been stored in the record, the other keys are not
    assigned. *)
Theorem collect_personal_info_partial (answers : list string) tail w :
  length answers < 7 ->
  stdin w = (map Some answers ++ tail)%list ->
  tail = [] \/ (exists rest, tail = None :: rest) ->
  fst (collect_personal_info w) = Raise EOFError /\
  stdin (snd (collect_personal_info w)) = tl tail /\
  resume_data (snd (collect_personal_info w))
  = dict_update (resume_data w) (combine personal_keys (map VStr answers)).
Proof.
  intros Hlen Hin Ht.
  destruct w as [i o f s r]. cbn in Hin. subst i.
  destruct answers as [|a1 [|a2 [|a3 [|a4 [|a5 [|a6 [|a7 l]]]]]]];
    try (cbn in Hlen; lia);
    destruct Ht as [-> | [rest ->]]; repeat split.
Qed.

Lemma collect_personal_info_partial_witness :
  length ["Ada"; "London"] < 7 /\
  fst (collect_personal_info (terminal [Some "Ada"; Some "London"; None]))
  = Raise EOFError /\
  resume_data
    (snd (collect_personal_info (terminal [Some "Ada"; Some "London"; None])))
  = [("name", VStr "Ada"); ("location", VStr "London")].
Proof.
  split; [cbn; lia|].
  pose proof (collect_personal_info_partial ["Ada"; "London"] [None]
                (terminal [Some "Ada"; Some "London"; None])
                ltac:(cbn; lia) eq_refl
                (or_intror (ex_intro _ [] eq_refl))) as (H1 & _ & H3).
  split; [exact H1 | exact H3].
Defined.

Lemma dict_get_filter_absent {A B} (p : A -> bool) (g : A -> B)
      (l : Dict.t A) (k : string) :
  existsb (String.eqb k) (Dict.keys l) = false ->
  Dict.get (flat_map (fun ca => if p (snd ca) then [(fst ca, g (snd ca))]
                                else []) l) k = None.
Proof.
  induction l as [|[k0 a0] l IH]; cbn; [reflexivity|].
  intros H. apply orb_false_iff in H as [Hk Hl].
  destruct (p a0); cbn; [rewrite String.eqb_sym, Hk|]; now apply IH.
Qed.

Lemma dict_get_filter {A B} (p : A -> bool) (g : A -> B)
      (l : Dict.t A) (k : string) :
  distinct (Dict.keys l) = true ->
  Dict.get (flat_map (fun ca => if p (snd ca) then [(fst ca, g (snd ca))]
                                else []) l) k
  = match Dict.get l k with
    | Some a => if p a then Some (g a) else None
    | None => None
    end.
Proof.
  induction l as [|[k0 a0] l IH]; cbn; [reflexivity|].
  intros H. apply andb_true_iff in H as [Hk0 Hl].
  apply negb_true_iff in Hk0.
  destruct (String.eqb_spec k0 k) as [-> | Hne].
  - destruct (p a0); cbn.
    + now rewrite String.eqb_refl.
    + now apply dict_get_filter_absent.
  - destruct (p a0); cbn; [|now apply IH].
    destruct (String.eqb_spec k0 k); [contradiction | now apply IH].
Qed.

(** X7. [collect_technical_skills] asks for the six categories in
    order and stores a mapping under [technical_skills]: a category
    whose answer is blank is absent from it, any other holds the pieces
    of its answer between commas, each stripped, in order. *)
Theorem collect_technical_skills_stores
        (str_strip : string -> string) (answers : list string) rest w :
  length answers = 6 ->
  stdin w = (map Some answers ++ rest)%list ->
  fst (collect_technical_skills str_strip w) = Ret tt /\
  stdin (snd (collect_technical_skills str_strip w)) = rest /\
  resume_data (snd (collect_technical_skills str_strip w))
  = Dict.set (resume_data w) "technical_skills"
             (VDict (skills_of str_strip answers)) /\
  (forall category,
     Dict.get (skills_of str_strip answers) category
     = match Dict.get (combine skill_categories answers) category with
       | Some answer =>
           if truthy answer then Some (skills_in str_strip answer) else None
       | None => None
       end).
Proof.
  intros Hlen Hin.
  destruct answers as [|a1 [|a2 [|a3 [|a4 [|a5 [|a6 [|a7 l]]]]]]];
    try discriminate.
  split; [|split; [|split]].
  4: { intros category. unfold skills_of. apply dict_get_filter. reflexivity. }
  all: destruct w as [i o f s r]; cbn in Hin; subst i;
    destruct a1, a2, a3, a4, a5, a6; reflexivity.
Qed.

Lemma collect_technical_skills_stores_witness :
  length ["Python, C"; ""; ""; "Docker"; ""; ""] = 6 /\
  Dict.get
    (resume_data
       (snd (collect_technical_skills (fun s => s)
               (terminal (map Some ["Python, C"; ""; ""; "Docker"; ""; ""])))))
    "technical_skills"
  = Some (VDict [ ("Languages", VList [VStr "Python"; VStr " C"]);
                  ("DevOps and API Tools", VList [VStr "Docker"]) ]).
Proof.
  split; [reflexivity|].
  rewrite (proj1 (proj2 (proj2
             (collect_technical_skills_stores (fun s => s)
                ["Python, C"; ""; ""; "Docker"; ""; ""] []
                (terminal (map Some ["Python, C"; ""; ""; "Docker"; ""; ""]))
                eq_refl eq_refl)))).
  reflexivity.
Defined.

Lemma list_input_loop_end (lines : list string) :
  forall (items : list string) tail fuel w,
    forallb truthy lines = true ->
    stdin w = (map Some lines ++ tail)%list ->
    at_end tail ->
    length (stdin w) < fuel ->
    loop_fuel fuel
      (fun items : list string =>
         item <- input "> " ;;
         if negb (truthy item) then ret (Break items)
         else ret (Continue (items ++ [item])%list))
      items w
    = (Raise EOFError, (items ++ lines)%list,
       moved (tl tail) (repeat "> " (S (length lines))) w).
Proof.
  induction lines as [|l lines IH]; intros items tail fuel w Hl Hin Ht Hfuel;
    (destruct fuel as [|fuel]; [lia|]); cbn [loop_fuel].
  - cbn in Hin. rewrite (bind_raise _ _ _ _ _ (input_end "> " tail w Hin Ht)).
    now rewrite app_nil_r.
  - cbn in Hl. apply andb_true_iff in Hl as [Hl1 Hl2]. cbn in Hin.
    rewrite (bind_ret _ _ _ _ _ (input_line "> " l _ w Hin)).
    rewrite Hl1. cbn [negb ret].
    rewrite (IH _ tail); [| exact Hl2 | reflexivity | exact Ht |].
    + rewrite moved_moved, <- app_assoc. reflexivity.
    + rewrite stdin_moved. rewrite Hin in Hfuel. cbn in Hfuel. lia.
Qed.

(** Every terminal holds some non-blank lines and then a blank line or
    the end of the input. *)
Lemma stdin_until_blank (i : list (option string)) :
  exists lines tail,
    i = (map Some lines ++ tail)%list /\ forallb truthy lines = true /\
    ((exists rest, tail = Some "" :: rest) \/ at_end tail).
Proof.
  induction i as [|[l|] i (lines & tail & -> & Hl & Ht)].
  - exists [], []. split; [reflexivity|]. split; [reflexivity|].
    right. now left.
  - destruct (truthy l) eqn:E.
    + exists (l :: lines), tail. cbn. rewrite E, Hl. auto.
    + apply truthy_false in E as ->.
      exists [], (Some "" :: map Some lines ++ tail)%list.
      split; [reflexivity|]. split; [reflexivity|]. left. eauto.
  - exists [], (None :: map Some lines ++ tail)%list.
    split; [reflexivity|]. split; [reflexivity|]. right. right. eauto.
Qed.

(** X8. On every terminal [get_list_input] either finds a blank line and
    returns the non-blank lines before it, or reaches the end of the
    input first and raises [EOFError] after reading every line: the
    lines read are then lost to the caller. *)
Theorem get_list_input_outcomes (prompt : string) (w : world) :
  exists lines tail,
    stdin w = (map Some lines ++ tail)%list /\
    forallb truthy lines = true /\
    ((exists rest,
         tail = Some "" :: rest /\
         get_list_input prompt w
         = (Ret lines,
            moved rest
              (list_input_header prompt :: repeat "> " (S (length lines))) w))
     \/ (at_end tail /\
         get_list_input prompt w
         = (Raise EOFError,
            moved (tl tail)
              (list_input_header prompt :: repeat "> " (S (length lines)))
              w))).
Proof.
  destruct (stdin_until_blank (stdin w)) as (lines & tail & Hin & Hl & Ht).
  exists lines, tail. split; [exact Hin|]. split; [exact Hl|].
  destruct Ht as [[rest ->] | Ht].
  - left. exists rest. split; [reflexivity|].
    now apply get_list_input_run.
  - right. split; [exact Ht|]. unfold get_list_input.
    erewrite bind_ret by apply print_run.
    unfold locals_after, while_true.
    rewrite (list_input_loop_end lines [] tail);
      [| exact Hl | exact Hin | exact Ht | cbn; lia].
    cbn [no_except app]. rewrite moved_moved. cbn [app].
    f_equal. f_equal. f_equal.
    unfold list_input_header. now rewrite !string_app_assoc.
Qed.

Lemma stdin_until_end (i : list (option string)) :
  exists lines tail, i = (map Some lines ++ tail)%list /\ at_end tail.
Proof.
  induction i as [|[l|] i (lines & tail & -> & Ht)].
  - exists [], []. split; [reflexivity | now left].
  - now exists (l :: lines), tail.
  - exists [], (None :: map Some lines ++ tail)%list.
    split; [reflexivity|]. right. eauto.
Qed.

Lemma collect_summary_run (lines : list string) tail w :
  stdin w = (map Some lines ++ tail)%list ->
  at_end tail ->
  collect_summary w
  = (Ret tt,
     set_resume_data
       (Dict.set (resume_data w) "summary" (VStr (String.concat " " lines)))
       (moved (tl tail) (summary_header ++ repeat "" (S (length lines))) w)).
Proof.
  intros Hin Ht. unfold collect_summary.
  rewrite (bind_ret _ _ _ _ _ (print_run _ w)).
  rewrite (bind_ret _ _ _ _ _ (print_run _ _)).
  rewrite moved_moved.
  unfold bind at 1. unfold locals_after, while_true.
  rewrite (summary_loop lines [] tail); [| exact Hin | exact Ht | cbn; lia].
  cbn [except_EOFError app]. rewrite moved_moved. reflexivity.
Qed.

(** X9. [collect_summary] never fails: on every terminal it returns
    and stores a summary, made of all the lines up to the end of the
    input; when the input is over at once the summary is the empty
    string, and so is it after a single blank line. *)
Theorem collect_summary_always_stores (w : world) :
  fst (collect_summary w) = Ret tt /\
  (exists lines tail,
      stdin w = (map Some lines ++ tail)%list /\ at_end tail /\
      stdin (snd (collect_summary w)) = tl tail /\
      resume_data (snd (collect_summary w))
      = Dict.set (resume_data w) "summary"
                 (VStr (String.concat " " lines))) /\
  (at_end (stdin w) ->
   Dict.get (resume_data (snd (collect_summary w))) "summary"
   = Some (VStr "")) /\
  (forall tail, stdin w = Some "" :: tail -> at_end tail ->
   Dict.get (resume_data (snd (collect_summary w))) "summary"
   = Some (VStr "")).
Proof.
  destruct (stdin_until_end (stdin w)) as (lines & tail & Hin & Ht).
  split; [now rewrite (collect_summary_run lines tail w Hin Ht)|].
  split; [|split].
  - exists lines, tail. rewrite (collect_summary_run lines tail w Hin Ht).
    now repeat split.
  - intros Hend.
    rewrite (collect_summary_run [] (stdin w) w eq_refl Hend).
    apply dict_get_set.
  - intros tail' Hin' Ht'.
    rewrite (collect_summary_run [""] tail' w Hin' Ht').
    apply dict_get_set.
Qed.

Lemma collect_summary_always_stores_witness :
  at_end (stdin (terminal [None; Some "Python"])) /\
  Dict.get
    (resume_data (snd (collect_summary (terminal [None; Some "Python"]))))
    "summary"
  = Some (VStr "").
Proof.
  assert (at_end (stdin (terminal [None; Some "Python"]))) as H.
  { right. now exists [Some "Python"]. }
  split; [exact H|].
  exact (proj1 (proj2 (proj2 (collect_summary_always_stores
                                (terminal [None; Some "Python"])))) H).
Defined.

(** *** What the collectors leave alone *)

Lemma reading_ret {A} (a : A) : reading (ret a).
Proof. intros w. cbn. repeat split. discriminate. Qed.

Lemma reading_bind {A B} (m : M A) (k : A -> M B) :
  reading m -> (forall a, reading (k a)) -> reading (bind m k).
Proof.
  intros Hm Hk w. unfold bind. destruct (Hm w) as (H1 & H2 & H3 & H4).
  destruct (m w) as [[a | e |] w1]; cbn in *.
  - destruct (Hk a w1) as (K1 & K2 & K3 & K4).
    repeat split; try congruence. exact K4.
  - repeat split; try assumption. intros e' [= <-]. now apply H4.
  - repeat split; try assumption. discriminate.
Qed.

Lemma reading_print (s : string) : reading (print s).
Proof. intros w. cbn. repeat split. discriminate. Qed.

Lemma reading_input (prompt : string) : reading (input prompt).
Proof.
  intros [i o f s r]. unfold input. cbn.
  destruct i as [|[l|] rest]; cbn; repeat split; congruence.
Qed.

Lemma loop_fuel_reading {L} (body : L -> M (flow L)) :
  (forall s, reading (body s)) ->
  forall fuel s w,
    resume_data (snd (loop_fuel fuel body s w)) = resume_data w /\
    files (snd (loop_fuel fuel body s w)) = files w /\
    spawned (snd (loop_fuel fuel body s w)) = spawned w /\
    (forall e, fst (fst (loop_fuel fuel body s w)) = Raise e -> e = EOFError).
Proof.
  intros Hbody. induction fuel as [|fuel IH]; intros s w; cbn [loop_fuel].
  - cbn. repeat split. discriminate.
  - destruct (Hbody s w) as (H1 & H2 & H3 & H4).
    destruct (body s w) as [[[s' | s'] | e |] w1]; cbn in *.
    + destruct (IH s' w1) as (K1 & K2 & K3 & K4).
      repeat split; try congruence. exact K4.
    + repeat split; try assumption. discriminate.
    + repeat split; try assumption. intros e' [= <-]. now apply H4.
    + repeat split; try assumption. discriminate.
Qed.

Lemma reading_while_true {L} (caught : exn -> bool)
      (body : L -> M (flow L)) (s : L) :
  (forall s, reading (body s)) ->
  reading (locals_after caught (while_true body s)).
Proof.
  intros Hbody w. unfold locals_after, while_true.
  destruct (loop_fuel_reading body Hbody (S (length (stdin w))) s w)
    as (H1 & H2 & H3 & H4).
  destruct (loop_fuel (S (length (stdin w))) body s w) as [[[[] | e |] s'] w'];
    cbn in *; [| destruct (caught e) |]; cbn; repeat split;
    try assumption; try discriminate.
  intros e' [= <-]. now apply H4.
Qed.

Lemma reading_get_list_input (prompt : string) :
  reading (get_list_input prompt).
Proof.
  unfold get_list_input. apply reading_bind; [apply reading_print|].
  intros _. apply reading_while_true. intros items.
  apply reading_bind; [apply reading_input|].
  intros item. destruct (negb (truthy item)); apply reading_ret.
Qed.

Lemma reading_read_fields (fs : list field) :
  forall entry, reading (read_fields fs entry).
Proof.
  induction fs as [|f fs IH]; intros entry; cbn [read_fields].
  - apply reading_ret.
  - apply reading_bind; [|intros v; apply IH].
    unfold read_field. destruct (kind f).
    + apply reading_bind; [apply reading_input | intros s; apply reading_ret].
    + apply reading_bind; [apply reading_get_list_input |
                           intros l; apply reading_ret].
Qed.

Lemma reading_entry_loop (sec : repeated_section) :
  reading (locals_after no_except (entry_loop sec)).
Proof.
  unfold entry_loop. apply reading_while_true. intros entries.
  apply reading_bind; [apply reading_print|]. intros _.
  apply reading_bind; [apply reading_input|]. intros key.
  destruct (negb (truthy key)); [apply reading_ret|].
  apply reading_bind; [apply reading_read_fields | intros e; apply reading_ret].
Qed.

Lemma steady_entry_loop (sec : repeated_section) :
  steady (locals_after no_except (entry_loop sec)).
Proof.
  unfold entry_loop. apply steady_while_true.
  - intros entries. apply steady_bind; [apply steady_print|]. intros _.
    apply steady_bind; [apply steady_input|]. intros key.
    destruct (negb (truthy key)); [apply steady_ret|].
    apply steady_bind; [apply steady_read_fields | intros e; apply steady_ret].
  - intros entries w s' w'. unfold bind at 1.
    rewrite print_run. unfold bind at 1. unfold get_user_input.
    match goal with
    | |- context [input ?p ?W] =>
        destruct (input p W) as [[key | e |] w1] eqn:E; try discriminate
    end.
    apply input_consumes in E. rewrite stdin_moved in E.
    destruct (negb (truthy key)); [discriminate|].
    pose proof (steady_read_fields (fields sec)
                  [(key_field sec, VStr key)] w1) as [_ Hle].
    unfold bind.
    destruct (read_fields (fields sec) [(key_field sec, VStr key)] w1)
      as [[entry | e |] w2]; try discriminate.
    cbn in *. intros [= <- <-]. lia.
Qed.

(** X10. A repeated-entry section is stored whole or not at all: on
    every terminal the collector either returns, having assigned the
    section's key once, or raises [EOFError] (the input ended before a
    blank key answer) and leaves the record as it was, the entries
    typed so far being lost. *)
Theorem collect_section_all_or_nothing (n : section_name) (w : world) :
  (fst (collect_section n w) = Ret tt /\
   exists entries,
     resume_data (snd (collect_section n w))
     = Dict.set (resume_data w) (target (section_of n)) (VList entries))
  \/ (fst (collect_section n w) = Raise EOFError /\
      resume_data (snd (collect_section n w)) = resume_data w).
Proof.
  rewrite collect_section_repeated. unfold collect_repeated.
  erewrite bind_ret by apply print_run. unfold bind.
  match goal with
  | |- context [locals_after no_except (entry_loop ?sec) ?W] =>
      destruct (reading_entry_loop sec W) as (H1 & _ & _ & H4);
      destruct (steady_entry_loop sec W) as [Hnd _];
      destruct (locals_after no_except (entry_loop sec) W)
        as [[entries | e |] w1]
  end; cbn in *.
  - left. split; [reflexivity|]. exists entries. now rewrite H1.
  - right. rewrite (H4 e eq_refl). split; [reflexivity | exact H1].
  - contradiction.
Qed.

Lemma collecting_of_reading {A} (m : M A) : reading m -> collecting m.
Proof. intros H w. destruct (H w) as (_ & H2 & H3 & H4). auto. Qed.

Lemma collecting_ret {A} (a : A) : collecting (ret a).
Proof. apply collecting_of_reading, reading_ret. Qed.

Lemma collecting_print (s : string) : collecting (print s).
Proof. apply collecting_of_reading, reading_print. Qed.

Lemma collecting_input (prompt : string) : collecting (input prompt).
Proof. apply collecting_of_reading, reading_input. Qed.

Lemma collecting_set (k : string) (v : value) :
  collecting (resume_data_set k v).
Proof. intros w. cbn. repeat split. discriminate. Qed.

Lemma collecting_bind {A B} (m : M A) (k : A -> M B) :
  collecting m -> (forall a, collecting (k a)) -> collecting (bind m k).
Proof.
  intros Hm Hk w. unfold bind. destruct (Hm w) as (H2 & H3 & H4).
  destruct (m w) as [[a | e |] w1]; cbn in *.
  - destruct (Hk a w1) as (K2 & K3 & K4).
    repeat split; try congruence. exact K4.
  - repeat split; try assumption. intros e' [= <-]. now apply H4.
  - repeat split; try assumption. discriminate.
Qed.

Ltac collector_step :=
  first [ apply collecting_print | apply collecting_input
        | apply collecting_set | apply collecting_ret
        | apply steady_print | apply steady_input
        | apply steady_resume_data_set | apply steady_ret
        | apply collecting_bind; [|intros ?]
        | apply steady_bind; [|intros ?] ].

Lemma collecting_personal_info : collecting collect_personal_info.
Proof.
  unfold collect_personal_info, get_user_input. repeat collector_step.
Qed.

Lemma steady_personal_info : steady collect_personal_info.
Proof.
  unfold collect_personal_info, get_user_input. repeat collector_step.
Qed.

Lemma collecting_summary : collecting collect_summary.
Proof.
  unfold collect_summary. repeat collector_step.
  apply collecting_of_reading, reading_while_true. intros lines.
  apply reading_bind; [apply reading_input | intros l; apply reading_ret].
Qed.

Lemma collecting_repeated (sec : repeated_section) :
  collecting (collect_repeated sec).
Proof.
  unfold collect_repeated. repeat collector_step.
  apply collecting_of_reading, reading_entry_loop.
Qed.

Lemma collecting_technical_skills (str_strip : string -> string) :
  collecting (collect_technical_skills str_strip).
Proof.
  unfold collect_technical_skills, get_user_input.
  repeat first [ collector_step
               | match goal with
                 | |- collecting (if truthy ?u then _ else _) =>
                     destruct (truthy u)
                 end ].
Qed.

Lemma steady_technical_skills (str_strip : string -> string) :
  steady (collect_technical_skills str_strip).
Proof.
  unfold collect_technical_skills, get_user_input.
  repeat first [ collector_step
               | match goal with
                 | |- steady (if truthy ?u then _ else _) =>
                     destruct (truthy u)
                 end ].
Qed.

(** * Properties of the whole run *)



Section WholeRun.
Variable exec : list string -> gmap string string -> spawn_result.
Variable render : string -> Dict.t value -> exn + string.
Variable decode_ignore : string -> string.
Variable str_strip : string -> string.



End WholeRun.


(** *** The collectors, one after the other *)

Lemma advance_advance rest1 out1 d1 rest2 out2 d2 w :
  advance rest2 out2 d2 (advance rest1 out1 d1 w)
  = advance rest2 (out1 ++ out2)%list d2 w.
Proof. unfold advance. cbn. now rewrite <- app_assoc. Qed.

Ltac run_collector :=
  cbv [bind print input get_user_input resume_data_set ret truthy
       set_stdout set_stdin set_resume_data
       stdin stdout files spawned resume_data advance];
  rewrite <- !app_assoc; reflexivity.

Lemma personal_info_advance (answers : list string) rest w :
  length answers = 7 ->
  stdin w = (map Some answers ++ rest)%list ->
  exists out,
    collect_personal_info w
    = (Ret tt,
       advance rest out
         (dict_update (resume_data w)
            (combine personal_keys (map VStr answers))) w).
Proof.
  intros Hlen Hin.
  destruct answers as [|a1 [|a2 [|a3 [|a4 [|a5 [|a6 [|a7 [|a8 l]]]]]]]];
    try discriminate.
  destruct w as [i o f s r]. cbn in Hin. subst i.
  eexists. unfold collect_personal_info. run_collector.
Qed.

Lemma technical_skills_advance (str_strip : string -> string)
      (answers : list string) rest w :
  length answers = 6 ->
  stdin w = (map Some answers ++ rest)%list ->
  exists out,
    collect_technical_skills str_strip w
    = (Ret tt,
       advance rest out
         (Dict.set (resume_data w) "technical_skills"
            (VDict (skills_of str_strip answers))) w).
Proof.
  intros Hlen Hin.
  destruct answers as [|a1 [|a2 [|a3 [|a4 [|a5 [|a6 [|a7 l]]]]]]];
    try discriminate.
  destruct w as [i o f s r]. cbn in Hin. subst i.
  eexists. unfold collect_technical_skills.
  destruct a1, a2, a3, a4, a5, a6; run_collector.
Qed.

Lemma summary_advance (lines : list string) rest w :
  stdin w = (map Some lines ++ None :: rest)%list ->
  exists out,
    collect_summary w
    = (Ret tt,
       advance rest out
         (Dict.set (resume_data w) "summary"
            (VStr (String.concat " " lines))) w).
Proof.
  intros Hin.
  rewrite (collect_summary_run lines (None :: rest) w Hin)
    by (right; now exists rest).
  eexists. reflexivity.
Qed.

Lemma repeated_advance (n : section_name) (es : list entry_input) rest w :
  forallb (entry_fits (section_of n)) es = true ->
  stdin w = (section_events es ++ rest)%list ->
  exists out,
    collect_repeated (section_of n) w
    = (Ret tt,
       advance rest out
         (Dict.set (resume_data w) (target (section_of n))
            (VList (map (entry_value (section_of n)) es))) w).
Proof.
  intros Hfit Hin. unfold section_events in Hin.
  rewrite <- app_assoc in Hin.
  destruct (collect_repeated_run (section_of n) es rest w
              (section_fields_distinct n) Hfit Hin) as [out E].
  rewrite E. eexists. reflexivity.
Qed.

Lemma print_advance (s : string) w :
  print s w = (Ret tt, advance (stdin w) [s ++ newline] (resume_data w) w).
Proof. now destruct w. Qed.

Lemma dict_update_app {A} (d : Dict.t A) (l1 l2 : list (string * A)) :
  dict_update d (l1 ++ l2)%list = dict_update (dict_update d l1) l2.
Proof. apply fold_left_app. Qed.

Lemma dict_update_fresh {A} (kvs : list (string * A)) :
  forall d : Dict.t A,
    distinct (Dict.keys d ++ Dict.keys kvs) = true ->
    dict_update d kvs = (d ++ kvs)%list.
Proof.
  unfold dict_update.
  induction kvs as [|[k v] kvs IH]; intros d Hd; cbn [fold_left fst snd].
  - now rewrite app_nil_r.
  - cbn [Dict.keys map fst] in Hd.
    apply distinct_app_cons in Hd as [Hk Hd].
    rewrite dict_set_fresh by exact Hk.
    rewrite IH; [now rewrite <- app_assoc|].
    now rewrite dict_keys_app.
Qed.

Lemma print_on_advance (s : string) r o d w :
  print s (advance r o d w)
  = (Ret tt, advance r (o ++ [s ++ newline]) d w).
Proof. unfold print, advance. cbn. now rewrite <- app_assoc. Qed.

(** A collector run on a world that has advanced. *)
Lemma on_advance (c : M unit) (f : Dict.t value -> Dict.t value)
      rest r o d w :
  (exists out,
      c (advance r o d w)
      = (Ret tt,
         advance rest out (f (resume_data (advance r o d w)))
                 (advance r o d w))) ->
  exists out,
    c (advance r o d w) = (Ret tt, advance rest (o ++ out) (f d) w).
Proof.
  intros [out E]. exists out. now rewrite E, advance_advance.
Qed.

Section Session.
Variable exec : list string -> gmap string string -> spawn_result.
Variable render : string -> Dict.t value -> exn + string.
Variable decode_ignore : string -> string.
Variable str_strip : string -> string.

(** A whole session, computed: every collector has run, the record
    holds the session, and the run goes on with the template. *)
Lemma main_collected (s : session) rest w :
  session_fits s = true ->
  stdin w = (session_events s ++ rest)%list ->
  exists out,
    main exec render decode_ignore str_strip w
    = match files w !! "template.tex" with
      | None =>
          (Raise (TemplateNotFound "template.tex"),
           advance rest out
             (dict_update (resume_data w) (session_record str_strip s)) w)
      | Some source =>
          match render source
                  (dict_comprehension sanitize_data
                     (dict_update (resume_data w)
                        (session_record str_strip s))) with
          | inl e =>
              (Raise e,
               advance rest out
                 (dict_update (resume_data w) (session_record str_strip s)) w)
          | inr text =>
              compile_pdf exec decode_ignore
                (World rest (stdout w ++ out ++ created_messages)%list
                       (<[tex_filename := text]> (files w)) (spawned w)
                       (dict_update (resume_data w)
                          (session_record str_strip s)))
          end
      end.
Proof.
  intros Hfit Hin. unfold session_fits in Hfit.
  repeat (apply andb_true_iff in Hfit as [Hfit ?]).
  apply Nat.eqb_eq in Hfit.
  match goal with H : Nat.eqb _ 6 = true |- _ => apply Nat.eqb_eq in H end.
  unfold session_events in Hin. rewrite <- !app_assoc in Hin.
  unfold main.
  erewrite bind_ret by apply print_advance. rewrite Hin.
  erewrite bind_ret by apply print_on_advance.
  match goal with
  | |- context [bind collect_personal_info _ (advance ?r ?o ?d0 ?w0)] =>
      destruct (on_advance collect_personal_info
                  (fun d => dict_update d
                              (combine personal_keys (map VStr (personal s))))
                  _ r o d0 w0
                  (personal_info_advance (personal s) _ (advance r o d0 w0)
                     Hfit eq_refl)) as [o1 E1]
  end.
  rewrite (bind_ret _ _ _ _ _ E1).
  match goal with
  | |- context [bind collect_summary _ (advance ?r ?o ?d0 ?w0)] =>
      destruct (on_advance collect_summary
                  (fun d => Dict.set d "summary"
                              (VStr (String.concat " " (summary s))))
                  _ r o d0 w0
                  (summary_advance (summary s) _ (advance r o d0 w0) eq_refl))
        as [o2 E2]
  end.
  rewrite (bind_ret _ _ _ _ _ E2).
  match goal with
  | |- context [bind (collect_technical_skills _) _ (advance ?r ?o ?d0 ?w0)] =>
      destruct (on_advance (collect_technical_skills str_strip)
                  (fun d => Dict.set d "technical_skills"
                              (VDict (skills_of str_strip (skills s))))
                  _ r o d0 w0
                  (technical_skills_advance str_strip (skills s) _
                     (advance r o d0 w0) ltac:(assumption) eq_refl))
        as [o3 E3]
  end.
  rewrite (bind_ret _ _ _ _ _ E3).
  unfold collect_experience, collect_internships, collect_education,
    collect_projects, collect_publications.
  match goal with
  | |- context [bind (collect_repeated experience_section) _
                     (advance ?r ?o ?d0 ?w0)] =>
      destruct (on_advance (collect_repeated experience_section)
                  (fun d => Dict.set d "experience"
                              (VList (map (entry_value experience_section)
                                          (experience s))))
                  _ r o d0 w0
                  (repeated_advance Experience (experience s) _
                     (advance r o d0 w0) ltac:(assumption) eq_refl))
        as [o4 E4]
  end.
  rewrite (bind_ret _ _ _ _ _ E4).
  match goal with
  | |- context [bind (collect_repeated internships_section) _
                     (advance ?r ?o ?d0 ?w0)] =>
      destruct (on_advance (collect_repeated internships_section)
                  (fun d => Dict.set d "internships"
                              (VList (map (entry_value internships_section)
                                          (internships s))))
                  _ r o d0 w0
                  (repeated_advance Internships (internships s) _
                     (advance r o d0 w0) ltac:(assumption) eq_refl))
        as [o5 E5]
  end.
  rewrite (bind_ret _ _ _ _ _ E5).
  match goal with
  | |- context [bind (collect_repeated education_section) _
                     (advance ?r ?o ?d0 ?w0)] =>
      destruct (on_advance (collect_repeated education_section)
                  (fun d => Dict.set d "education"
                              (VList (map (entry_value education_section)
                                          (education s))))
                  _ r o d0 w0
                  (repeated_advance Education (education s) _
                     (advance r o d0 w0) ltac:(assumption) eq_refl))
        as [o6 E6]
  end.
  rewrite (bind_ret _ _ _ _ _ E6).
  match goal with
  | |- context [bind (collect_repeated projects_section) _
                     (advance ?r ?o ?d0 ?w0)] =>
      destruct (on_advance (collect_repeated projects_section)
                  (fun d => Dict.set d "projects"
                              (VList (map (entry_value projects_section)
                                          (projects s))))
                  _ r o d0 w0
                  (repeated_advance Projects (projects s) _
                     (advance r o d0 w0) ltac:(assumption) eq_refl))
        as [o7 E7]
  end.
  rewrite (bind_ret _ _ _ _ _ E7).
  match goal with
  | |- context [bind (collect_repeated publications_section) _
                     (advance ?r ?o ?d0 ?w0)] =>
      destruct (on_advance (collect_repeated publications_section)
                  (fun d => Dict.set d "publications"
                              (VList (map (entry_value publications_section)
                                          (publications s))))
                  _ r o d0 w0
                  (repeated_advance Publications (publications s) _
                     (advance r o d0 w0) ltac:(assumption) eq_refl))
        as [o8 E8]
  end.
  rewrite (bind_ret _ _ _ _ _ E8).
  eexists.
  unfold bind at 1. cbn [sanitize_data]. unfold bind at 1.
  cbn [files resume_data advance section_of target].
  unfold session_record. rewrite dict_update_app.
  change (dict_update
            (dict_update (resume_data w)
               (combine personal_keys (map VStr (personal s)))) _)
    with (Dict.set
            (Dict.set
               (Dict.set
                  (Dict.set
                     (Dict.set
                        (Dict.set
                           (Dict.set
                              (dict_update (resume_data w)
                                 (combine personal_keys
                                    (map VStr (personal s))))
                              "summary"
                              (VStr (String.concat " " (summary s))))
                           "technical_skills"
                           (VDict (skills_of str_strip (skills s))))
                        "experience"
                        (VList (map (entry_value experience_section)
                                    (experience s))))
                     "internships"
                     (VList (map (entry_value internships_section)
                                 (internships s))))
                  "education"
                  (VList (map (entry_value education_section)
                              (education s))))
               "projects"
               (VList (map (entry_value projects_section) (projects s))))
            "publications"
            (VList (map (entry_value publications_section)
                        (publications s)))).
  destruct (files w !! "template.tex") as [source|]; [|reflexivity].
  match goal with
  | |- context [render source ?d1] =>
      match goal with
      | |- _ = match render source ?d2 with _ => _ end =>
          change d1 with d2; destruct (render source d2) as [e | text]
      end
  end; [reflexivity|].
  unfold bind, write_file, print.
  cbv [set_files set_stdout files spawned stdin stdout resume_data fst snd
       advance created_messages].
  rewrite <- !app_assoc. reflexivity.
Qed.

End Session.

Lemma session_record_keys (str_strip : string -> string) (s : session) :
  length (personal s) = 7 ->
  Dict.keys (session_record str_strip s)
  = (personal_keys
     ++ ["summary"; "technical_skills"; "experience"; "internships";
         "education"; "projects"; "publications"])%list.
Proof.
  unfold session_record. destruct (personal s)
    as [|a1 [|a2 [|a3 [|a4 [|a5 [|a6 [|a7 [|a8 l]]]]]]]]; try discriminate.
  reflexivity.
Qed.

Lemma session_fits_personal (s : session) :
  session_fits s = true -> length (personal s) = 7.
Proof.
  unfold session_fits. intros H.
  repeat (apply andb_true_iff in H as [H _]). now apply Nat.eqb_eq.
Qed.

(** X12. A whole session on a fresh process, with the template
    present and rendering: every prompt is answered, the record holds
    the session in the order of the prompts, the renderer receives the
    sanitized record with the same keys, and the compilation stage
    starts with [resume.tex] holding the rendered text, no process
    launched before. *)
Theorem main_session_renders
        (exec : list string -> gmap string string -> spawn_result)
        (render : string -> Dict.t value -> exn + string)
        (decode_ignore str_strip : string -> string)
        (s : session) (source text : string) rest w :
  session_fits s = true ->
  stdin w = (session_events s ++ rest)%list ->
  resume_data w = [] ->
  files w !! "template.tex" = Some source ->
  render source (sanitized_items (session_record str_strip s)) = inr text ->
  exists out,
    main exec render decode_ignore str_strip w
    = compile_pdf exec decode_ignore
        (World rest (stdout w ++ out)%list
               (<["resume.tex" := text]> (files w)) (spawned w)
               (session_record str_strip s)).
Proof.
  intros Hfit Hin Hfresh Htemplate Hrender.
  destruct (main_collected exec render decode_ignore str_strip s rest w
              Hfit Hin) as [out E].
  pose proof (session_record_keys str_strip s (session_fits_personal s Hfit))
    as Hkeys.
  assert (dict_update (resume_data w) (session_record str_strip s)
          = session_record str_strip s) as Hrecord.
  { rewrite Hfresh, dict_update_fresh; [reflexivity|].
    cbn [Dict.keys map app]. fold (Dict.keys (session_record str_strip s)).
    now rewrite Hkeys. }
  rewrite Hrecord, Htemplate in E.
  rewrite dict_comprehension_map in E by now rewrite Hkeys.
  unfold sanitized_items in Hrender. rewrite Hrender in E.
  exists (out ++ created_messages)%list. exact E.
Qed.

Lemma main_session_renders_witness :
  session_fits scenario_session = true /\
  files scenario_world !! "template.tex" = Some "Company: " /\
  company_template "Company: "
    (sanitized_items (session_record (fun x => x) scenario_session))
  = inr "Company: Acme \& Co" /\
  exists out,
    main working_pdflatex company_template (fun x => x) (fun x => x)
         scenario_world
    = compile_pdf working_pdflatex (fun x => x)
        (World [] out
               (<["resume.tex" := "Company: Acme \& Co"]>
                  (files scenario_world)) []
               (session_record (fun x => x) scenario_session)).
Proof.
  split; [reflexivity|]. split; [reflexivity|]. split; [reflexivity|].
  destruct (main_session_renders working_pdflatex company_template
              (fun x => x) (fun x => x) scenario_session
              "Company: " "Company: Acme \& Co" [] scenario_world
              eq_refl eq_refl eq_refl eq_refl eq_refl) as [out E].
  exists out. exact E.
Defined.

(** The session of the scenario, run to its end. *)
Example scenario_run :
  let w := snd (main working_pdflatex company_template (fun x => x)
                     (fun x => x) scenario_world) in
  files w !! "resume.tex" = Some "Company: Acme \& Co" /\
  files w !! "resume.pdf" = Some "%PDF" /\
  files w !! "resume.log" = None /\
  files w !! "resume.aux" = None /\
  spawned w = [pdflatex_argv; pdflatex_argv] /\
  stdin w = [].
Proof. vm_compute. repeat split. Qed.

(** X13. The template is looked for only after the whole session has
    been typed: when [template.tex] is missing, [main] has read every
    answer and filled the record before it raises [TemplateNotFound];
    nothing is written and the compiler is not launched. *)
Theorem main_template_missing
        (exec : list string -> gmap string string -> spawn_result)
        (render : string -> Dict.t value -> exn + string)
        (decode_ignore str_strip : string -> string)
        (s : session) rest w :
  session_fits s = true ->
  stdin w = (session_events s ++ rest)%list ->
  files w !! "template.tex" = None ->
  fst (main exec render decode_ignore str_strip w)
  = Raise (TemplateNotFound "template.tex") /\
  stdin (snd (main exec render decode_ignore str_strip w)) = rest /\
  resume_data (snd (main exec render decode_ignore str_strip w))
  = dict_update (resume_data w) (session_record str_strip s) /\
  files (snd (main exec render decode_ignore str_strip w)) = files w /\
  spawned (snd (main exec render decode_ignore str_strip w)) = spawned w.
Proof.
  intros Hfit Hin Htemplate.
  destruct (main_collected exec render decode_ignore str_strip s rest w
              Hfit Hin) as [out E].
  rewrite Htemplate in E. rewrite E. repeat split.
Qed.

Lemma main_template_missing_witness :
  session_fits scenario_session = true /\
  files scenario_world_no_template !! "template.tex" = None /\
  fst (main working_pdflatex company_template (fun x => x) (fun x => x)
            scenario_world_no_template)
  = Raise (TemplateNotFound "template.tex") /\
  stdin (snd (main working_pdflatex company_template (fun x => x)
                   (fun x => x) scenario_world_no_template)) = [].
Proof.
  split; [reflexivity|]. split; [reflexivity|].
  pose proof (main_template_missing working_pdflatex company_template
                (fun x => x) (fun x => x) scenario_session []
                scenario_world_no_template eq_refl eq_refl eq_refl)
    as (H1 & H2 & _).
  split; [exact H1 | exact H2].
Defined.


(** The session of the scenario with a compiler that may not be
    executed: [PermissionError] leaves [main] after [resume.tex] was
    written; the compiler was tried once and the cleanup has run. *)
Example scenario_forbidden :
  let r := main forbidden_pdflatex company_template (fun x => x)
                (fun x => x) scenario_world in
  fst r = Raise (OtherOSError "PermissionError") /\
  files (snd r) !! "resume.tex" = Some "Company: Acme \& Co" /\
  files (snd r) !! "resume.pdf" = None /\
  spawned (snd r) = [pdflatex_argv] /\
  stdin (snd r) = [].
Proof. vm_compute. repeat split. Qed.

(** *** The collected record is a record *)

Lemma is_record_strings (f : string -> string) (l : list string) :
  forallb is_record (map (fun x => VStr (f x)) l) = true.
Proof. induction l as [|x l IH]; cbn; [reflexivity | exact IH]. Qed.

Lemma filtered_keys_absent {A B} (p : A -> bool) (g : A -> B)
      (l : Dict.t A) (k : string) :
  existsb (String.eqb k) (Dict.keys l) = false ->
  existsb (String.eqb k)
    (Dict.keys (flat_map (fun ca => if p (snd ca) then [(fst ca, g (snd ca))]
                                    else []) l)) = false.
Proof.
  induction l as [|[k0 a0] l IH]; cbn; [reflexivity|].
  intros H. apply orb_false_iff in H as [Hk Hl].
  destruct (p a0); cbn; [rewrite Hk|]; now apply IH.
Qed.

Lemma filtered_keys_distinct {A B} (p : A -> bool) (g : A -> B)
      (l : Dict.t A) :
  distinct (Dict.keys l) = true ->
  distinct
    (Dict.keys (flat_map (fun ca => if p (snd ca) then [(fst ca, g (snd ca))]
                                    else []) l)) = true.
Proof.
  induction l as [|[k0 a0] l IH]; cbn; [reflexivity|].
  intros H. apply andb_true_iff in H as [Hk Hl].
  apply negb_true_iff in Hk.
  destruct (p a0); cbn; [|now apply IH].
  fold (Dict.keys (flat_map (fun ca => if p (snd ca)
                                       then [(fst ca, g (snd ca))] else []) l)).
  rewrite (filtered_keys_absent p g l k0 Hk). cbn. now apply IH.
Qed.

Lemma is_record_skills (str_strip : string -> string) (answers : list string) :
  length answers = 6 ->
  is_record (VDict (skills_of str_strip answers)) = true.
Proof.
  intros Hlen. cbn [is_record]. apply andb_true_iff. split.
  - unfold skills_of. apply filtered_keys_distinct.
    destruct answers as [|a1 [|a2 [|a3 [|a4 [|a5 [|a6 [|a7 l]]]]]]];
      try discriminate.
    reflexivity.
  - unfold skills_of. generalize (combine skill_categories answers).
    intros l. induction l as [|[c a] l IH]; cbn; [reflexivity|].
    destruct (truthy a); cbn; [|exact IH].
    now rewrite is_record_strings.
Qed.

Lemma answers_fit_combine (fs : list field) :
  forall l : list value,
    answers_fit fs l = true ->
    Dict.keys (combine (map field_name fs) l) = map field_name fs /\
    forallb (fun kv => is_record (snd kv)) (combine (map field_name fs) l)
    = true.
Proof.
  induction fs as [|f fs IH]; intros [|a l] Hfit; try discriminate.
  - now split.
  - cbn in Hfit. apply andb_true_iff in Hfit as [Ha Hl].
    destruct (IH l Hl) as [Hk Hr]. cbn. rewrite Hr.
    unfold Dict.keys in Hk. rewrite Hk. split; [reflexivity|].
    rewrite andb_true_r.
    unfold answer_fits in Ha.
    destruct (kind f), a as [s | vs | | | |]; try discriminate; [reflexivity|].
    cbn [is_record]. clear -Ha.
    induction vs as [|x vs IHv]; cbn in *; [reflexivity|].
    apply andb_true_iff in Ha as [Hx Hvs].
    destruct x; try discriminate. cbn. now apply IHv.
Qed.

Lemma is_record_entries (n : section_name) (es : list entry_input) :
  forallb (entry_fits (section_of n)) es = true ->
  is_record (VList (map (entry_value (section_of n)) es)) = true.
Proof.
  intros Hfit. cbn [is_record].
  induction es as [|e es IH]; cbn [map forallb]; [reflexivity|].
  cbn [forallb] in Hfit. apply andb_true_iff in Hfit as [He Hes].
  rewrite (IH Hes), andb_true_r.
  unfold entry_fits in He. apply andb_true_iff in He as [_ Hans].
  destruct (answers_fit_combine _ _ Hans) as [Hk Hr].
  unfold entry_value. cbn [is_record Dict.keys map fst snd forallb].
  fold (Dict.keys (combine (map field_name (fields (section_of n)))
                           (answers e))).
  rewrite Hk, Hr, (section_fields_distinct n). reflexivity.
Qed.

(** X14. What a session leaves in the record is a well-formed nested
    record, so all that holds of the traversal holds of the record that
    [main] sanitizes: the sanitized record has the shape of the
    collected one, and reading it back gives the collected one. *)
Theorem session_record_is_record
        (str_strip : string -> string) (s : session) :
  session_fits s = true ->
  is_record (VDict (session_record str_strip s)) = true /\
  sanitize_data (VDict (session_record str_strip s))
  = VDict (sanitized_items (session_record str_strip s)) /\
  shape_of (sanitize_data (VDict (session_record str_strip s)))
  = shape_of (VDict (session_record str_strip s)) /\
  unsanitize (sanitize_data (VDict (session_record str_strip s)))
  = VDict (session_record str_strip s).
Proof.
  intros Hfit.
  assert (is_record (VDict (session_record str_strip s)) = true) as Hrec.
  { pose proof (session_record_keys str_strip s
                  (session_fits_personal s Hfit)) as Hkeys.
    cbn [is_record]. rewrite Hkeys.
    apply andb_true_iff. split; [reflexivity|].
    unfold session_fits in Hfit.
    repeat (apply andb_true_iff in Hfit as [Hfit ?]).
    match goal with H : Nat.eqb _ 6 = true |- _ => apply Nat.eqb_eq in H end.
    unfold session_record. rewrite forallb_app.
    apply andb_true_iff. split.
    - assert (forall (ks : list string) (l : list string),
                 forallb (fun kv : string * value => is_record (snd kv))
                         (combine ks (map VStr l)) = true) as Hstr.
      { intros ks l. revert ks.
        induction l as [|x l IH]; intros [|k ks]; cbn; auto. }
      apply Hstr.
    - cbn [forallb snd].
      rewrite (is_record_skills str_strip (skills s)) by assumption.
      rewrite (is_record_entries Experience), (is_record_entries Internships),
        (is_record_entries Education), (is_record_entries Projects),
        (is_record_entries Publications) by assumption.
      reflexivity. }
  split; [exact Hrec|]. split; [|split].
  - cbn [sanitize_data]. f_equal. apply dict_comprehension_map.
    cbn [is_record] in Hrec. now apply andb_true_iff in Hrec as [Hd _].
  - rewrite sanitize_data_map_strings by exact Hrec.
    apply shape_of_map_strings.
  - unfold unsanitize. rewrite sanitize_data_map_strings by exact Hrec.
    apply map_strings_inverse. intros x.
    rewrite escape_latex_str_simultaneous.
    apply unescape_simultaneous_subst.
Qed.

Lemma session_record_is_record_witness :
  session_fits scenario_session = true /\
  is_record (VDict (session_record (fun x => x) scenario_session)) = true.
Proof.
  split; [reflexivity|].
  exact (proj1 (session_record_is_record (fun x => x) scenario_session
                  eq_refl)).
Defined.

(** * Further properties of the compilation stage *)

(** X15. When both runs of the compiler exit with code 0: the second
    run starts from the files the first one left, the success message
    is the only thing printed, and of the files the second run left
    only the three auxiliary ones are removed: the PDF it produced is
    still there. *)
Theorem compile_pdf_success
        (exec : list string -> gmap string string -> spawn_result)
        (decode_ignore : string -> string) (w : world)
        (out1 err1 out2 err2 : string) (fs1 fs2 : gmap string string) :
  exec pdflatex_argv (files w) = Exited 0 out1 err1 fs1 ->
  exec pdflatex_argv fs1 = Exited 0 out2 err2 fs2 ->
  compile_pdf exec decode_ignore w
  = (Ret tt,
     World (stdin w)
           (stdout w ++ printed [success_message])%list
           (cleaned fs2)
           (spawned w ++ [pdflatex_argv; pdflatex_argv])%list
           (resume_data w)) /\
  (forall path,
     ~ In path ["resume.aux"; "resume.log"; "resume.out"] ->
     files (snd (compile_pdf exec decode_ignore w)) !! path = fs2 !! path) /\
  files (snd (compile_pdf exec decode_ignore w)) !! "resume.pdf"
  = fs2 !! "resume.pdf" /\
  stdout (snd (compile_pdf exec decode_ignore w))
  = (stdout w
     ++ [String.append
           "✅ Success! Your resume has been generated as 'resume.pdf'. 🎉"
           newline])%list.
Proof.
  intros E1 E2. rewrite compile_pdf_run. unfold compile_path.
  rewrite E1. cbn [Z.eqb]. rewrite E2. cbn [Z.eqb snd files stdout].
  split; [reflexivity|]. split; [|split].
  - intros path Hpath. now apply cleaned_other.
  - apply cleaned_other. cbn. intros [H | [H | [H | []]]]; discriminate.
  - reflexivity.
Qed.

Lemma compile_pdf_success_witness :
  working_pdflatex pdflatex_argv (files stale_directory)
  = Exited 0 "Output written on resume.pdf" ""
      (<["resume.pdf" := "%PDF"]>
         (<["resume.log" := "log"]>
            (<["resume.aux" := "aux"]> (files stale_directory)))) /\
  files (snd (compile_pdf working_pdflatex (fun b => b) stale_directory))
    !! "resume.pdf" = Some "%PDF" /\
  files (snd (compile_pdf working_pdflatex (fun b => b) stale_directory))
    !! "resume.log" = None.
Proof.
  split; [reflexivity|].
  rewrite (proj1 (compile_pdf_success working_pdflatex (fun b => b)
                    stale_directory _ _ _ _ _ _ eq_refl eq_refl)).
  split; reflexivity.
Defined.

(** X16. After a failed compilation, whether the first run or the
    second exits with a non-zero code, the user is told to check
    [resume.log] (the second of the lines printed), and that file has
    been removed by the cleanup, whatever the compiler wrote: the log
    the message points to is never there when the run ends. *)
Theorem compile_pdf_failure_removes_log
        (exec : list string -> gmap string string -> spawn_result)
        (decode_ignore : string -> string) (w : world) :
  (forall rc out err fs1,
      exec pdflatex_argv (files w) = Exited rc out err fs1 ->
      rc <> 0%Z ->
      (exists line rest,
          stdout (snd (compile_pdf exec decode_ignore w))
          = (stdout w
             ++ line
             :: String.append
                  "Please check the 'resume.log' file for detailed LaTeX errors."
                  newline
             :: rest)%list) /\
      files (snd (compile_pdf exec decode_ignore w)) !! "resume.log" = None) /\
  (forall out1 err1 fs1 rc out err fs2,
      exec pdflatex_argv (files w) = Exited 0 out1 err1 fs1 ->
      exec pdflatex_argv fs1 = Exited rc out err fs2 ->
      rc <> 0%Z ->
      (exists line rest,
          stdout (snd (compile_pdf exec decode_ignore w))
          = (stdout w
             ++ line
             :: String.append
                  "Please check the 'resume.log' file for detailed LaTeX errors."
                  newline
             :: rest)%list) /\
      files (snd (compile_pdf exec decode_ignore w)) !! "resume.log" = None).
Proof.
  rewrite compile_pdf_run. unfold compile_path. split.
  - intros rc out err fs1 E Hrc. rewrite E.
    destruct (Z.eqb_spec rc 0); [contradiction|]. cbn [snd stdout files].
    split; [|apply cleaned_lookup]. cbn. eauto.
  - intros out1 err1 fs1 rc out err fs2 E1 E2 Hrc.
    rewrite E1. cbn [Z.eqb]. rewrite E2.
    destruct (Z.eqb_spec rc 0); [contradiction|]. cbn [snd stdout files].
    split; [|apply cleaned_lookup]. cbn. eauto.
Qed.

Lemma compile_pdf_failure_removes_log_witness :
  failing_second_run pdflatex_argv (files clean_directory)
  = Exited 0 "pass 1" ""
      (<["resume.log" := "pass 1"]>
         (<["resume.aux" := "refs"]> (files clean_directory))) /\
  failing_second_run pdflatex_argv
    (<["resume.log" := "pass 1"]>
       (<["resume.aux" := "refs"]> (files clean_directory)))
  = Exited 2 "! Emergency stop." ""
      (<["resume.log" := "pass 2"]>
         (<["resume.log" := "pass 1"]>
            (<["resume.aux" := "refs"]> (files clean_directory)))) /\
  files (snd (compile_pdf failing_second_run (fun b => b) clean_directory))
    !! "resume.log" = None /\
  files (snd (compile_pdf failing_pdflatex (fun b => b) stale_directory))
    !! "resume.log" = None.
Proof.
  split; [reflexivity|]. split; [reflexivity|]. split.
  - exact (proj2 (proj2 (compile_pdf_failure_removes_log failing_second_run
                           (fun b => b) clean_directory)
                    _ _ _ 2%Z _ _ _ eq_refl eq_refl ltac:(discriminate))).
  - exact (proj2 (proj1 (compile_pdf_failure_removes_log failing_pdflatex
                           (fun b => b) stale_directory)
                    1%Z _ _ _ eq_refl ltac:(discriminate))).
Defined.

(** The second run failing, from the first launch to the cleanup. *)
Example compile_pdf_second_run_fails :
  let w := snd (compile_pdf failing_second_run (fun b => b) clean_directory) in
  spawned w = [pdflatex_argv; pdflatex_argv] /\
  files w !! "resume.log" = None /\
  files w !! "resume.aux" = None /\
  nth_error (stdout w) 1
  = Some (String.append
            "Please check the 'resume.log' file for detailed LaTeX errors."
            newline) /\
  nth_error (stdout w) 3 = Some (String.append "! Emergency stop." newline).
Proof. vm_compute. repeat split. Qed.

(** * What the data collector never does *)

(** X17. None of the eight collectors touches a file or launches a
    process, each of them ends on every terminal, and the only way one
    can fail is [EOFError]. *)
Theorem collectors_only_read
        (str_strip : string -> string) (n : section_name) (w : world) :
  let run (m : M unit) :=
    fst (m w) <> Diverge /\
    (forall e, fst (m w) = Raise e -> e = EOFError) /\
    files (snd (m w)) = files w /\
    spawned (snd (m w)) = spawned w in
  run collect_personal_info /\
  run collect_summary /\
  run (collect_technical_skills str_strip) /\
  run (collect_section n).
Proof.
  assert (forall m : M unit, steady m -> collecting m ->
            fst (m w) <> Diverge /\
            (forall e, fst (m w) = Raise e -> e = EOFError) /\
            files (snd (m w)) = files w /\
            spawned (snd (m w)) = spawned w) as Hrun.
  { intros m Hs Hc. destruct (Hs w) as [Hnd _].
    destruct (Hc w) as (H1 & H2 & H3). auto. }
  cbv zeta. rewrite collect_section_repeated.
  split; [apply Hrun; [apply steady_personal_info
                      | apply collecting_personal_info]|].
  split; [apply Hrun; [apply steady_collect_summary
                      | apply collecting_summary]|].
  split; [apply Hrun; [apply steady_technical_skills
                      | apply collecting_technical_skills]|].
  apply Hrun; [apply steady_collect_repeated | apply collecting_repeated].
Qed.
